(** * Podcast player: playback state, position checkpoints, restoration

    A shallow embedding of the playback core of the web player
    ([PodcastApp]: [playEpisode], [togglePlayPause], [skipForward],
    [skipBackward], [getEpisodeProgress], [saveProgress],
    [setPlaybackRate] and the audio event handlers) and of the
    [PlaybackRestoration] component ([loadEpisodeForRestoration],
    [handleRestore]), followed by the properties the specification
    states about them. *)

From Equations Require Import Equations.
From Stdlib Require Import ZArith NArith Ascii String List Lia Bool.
From stdpp Require Import gmap strings list.
Import ListNotations.

#[local] Open Scope Z_scope.

(** ** JavaScript numbers and their text form

    The player keeps positions, durations and rates in JavaScript
    numbers, prints them with [Number.prototype.toString] and reads them
    back with [parseInt] and [parseFloat].  A finite number is kept here
    as a decimal [coef * 10^-scale]: every finite double has such a form,
    and the digits [toString] prints are those of its shortest decimal
    form.  Arithmetic is exact (no binary rounding); the infinities and
    the sign of zero are not represented. *)
Module JS.

Record dec : Type := Dec { coef : Z; scale : nat }.

Inductive number : Type :=
| NaN
| Num (d : dec).

Definition pow10 (n : nat) : Z := 10 ^ Z.of_nat n.

Definition of_Z (z : Z) : number := Num (Dec z 0).

Definition dec_leb (a b : dec) : bool :=
  coef a * pow10 (scale b) <=? coef b * pow10 (scale a).

Definition dec_ltb (a b : dec) : bool :=
  coef a * pow10 (scale b) <? coef b * pow10 (scale a).

Definition dec_add (a b : dec) : dec :=
  let m := Nat.max (scale a) (scale b) in
  Dec (coef a * pow10 (m - scale a) + coef b * pow10 (m - scale b)) m.

Definition dec_opp (a : dec) : dec := Dec (- coef a) (scale a).

(** [a + b], [a - b], [a > b], [Math.min(a, b)], [Math.max(a, b)] and
    the truth value of a number in a condition. *)
Definition add (a b : number) : number :=
  match a, b with
  | Num x, Num y => Num (dec_add x y)
  | _, _ => NaN
  end.

Definition sub (a b : number) : number :=
  match a, b with
  | Num x, Num y => Num (dec_add x (dec_opp y))
  | _, _ => NaN
  end.

Definition gt (a b : number) : bool :=
  match a, b with
  | Num x, Num y => dec_ltb y x
  | _, _ => false
  end.

Definition min (a b : number) : number :=
  match a, b with
  | Num x, Num y => if dec_leb x y then a else b
  | _, _ => NaN
  end.

Definition max (a b : number) : number :=
  match a, b with
  | Num x, Num y => if dec_leb x y then b else a
  | _, _ => NaN
  end.

Definition truthy (a : number) : bool :=
  match a with
  | NaN => false
  | Num x => negb (coef x =? 0)
  end.

(** The value of [a] in units of [10^-m], for [m] at least its scale. *)
Definition units (m : nat) (a : dec) : Z := coef a * pow10 (m - scale a).

(** The integer part of a finite number, rounded towards zero. *)
Definition trunc (a : dec) : Z := Z.quot (coef a) (pow10 (scale a)).

(** [a === b] on finite numbers. *)
Definition dec_eqb (a b : dec) : bool :=
  coef a * pow10 (scale b) =? coef b * pow10 (scale a).

(** The numbers from 0.000001 up to, but not including, 10^21: those
    that [toString] prints in positional notation. *)
Definition positional (a : dec) : bool :=
  dec_leb (Dec 1 6) a && dec_ltb a (Dec (10 ^ 21) 0).

(** *** Decimal digits *)

(** The decimal digits of [n], least significant first. *)
Equations? digits_le (n : N) : list N by wf (N.to_nat (N.log2 n)) lt :=
  digits_le n with decide (n < 10)%N => {
    | left _ := [n];
    | right _ := (n mod 10)%N :: digits_le (n / 10)%N }.
Proof.
  assert (0 < n / 10)%N by (apply N.div_str_pos; lia).
  assert (2 * (n / 10) <= n)%N
    by (pose proof (N.Div0.mul_div_le n 10); lia).
  assert (N.log2 (2 * (n / 10)) <= N.log2 n)%N by (apply N.log2_le_mono; lia).
  rewrite N.log2_double in * by lia.
  lia.
Qed.

(** Most significant digit first, as they are printed. *)
Definition digits (n : N) : list N := rev (digits_le n).

Definition digit_char (d : N) : ascii := ascii_of_N (48 + d).

Definition string_of_digits (ds : list N) : string :=
  string_of_list_ascii (map digit_char ds).

Fixpoint drop_zeros (ds : list N) : list N :=
  match ds with
  | 0%N :: r => drop_zeros r
  | _ => ds
  end.

(** The digits without the zeros at the end. *)
Definition strip_trailing_zeros (ds : list N) : list N :=
  rev (drop_zeros (rev ds)).

Definition zeros (n : nat) : list N := repeat 0%N n.

(** [Number::toString] of a positive number [c * 10^-sc], radix 10:
    with [s] the digits without trailing zeros, [k] their count and [n]
    the position of the decimal point, positional notation is used for
    [-6 < n <= 21] and exponent notation otherwise. *)
Definition toString_pos (c : N) (sc : nat) : string :=
  let ds := digits c in
  let n := Z.of_nat (length ds) - Z.of_nat sc in
  let s := strip_trailing_zeros ds in
  let k := Z.of_nat (length s) in
  if (k <=? n) && (n <=? 21) then
    string_of_digits (s ++ zeros (Z.to_nat (n - k)))
  else if (0 <? n) && (n <=? 21) then
    string_of_digits (firstn (Z.to_nat n) s) +:+ "." +:+
    string_of_digits (skipn (Z.to_nat n) s)
  else if (-6 <? n) && (n <=? 0) then
    "0." +:+ string_of_digits (zeros (Z.to_nat (- n)) ++ s)
  else
    let e := n - 1 in
    let sign := if e <? 0 then "-" else "+" in
    let expo := string_of_digits (digits (Z.to_N (Z.abs e))) in
    match s with
    | [d] => string_of_digits [d] +:+ "e" +:+ sign +:+ expo
    | d :: r =>
        string_of_digits [d] +:+ "." +:+ string_of_digits r +:+
        "e" +:+ sign +:+ expo
    | [] => "0"
    end.

Definition toString (a : number) : string :=
  match a with
  | NaN => "NaN"
  | Num (Dec c sc) =>
      if c =? 0 then "0"
      else if c <? 0 then "-" +:+ toString_pos (Z.to_N (- c)) sc
      else toString_pos (Z.to_N c) sc
  end.

(** *** Reading numbers from text *)

(** The value of a digit in a radix, when it is one. *)
Definition digit_val (radix : N) (c : ascii) : option N :=
  let n := N_of_ascii c in
  let v := if (48 <=? n)%N && (n <=? 57)%N then Some (n - 48)%N
           else if (97 <=? n)%N && (n <=? 122)%N then Some (n - 87)%N
           else if (65 <=? n)%N && (n <=? 90)%N then Some (n - 55)%N
           else None in
  match v with
  | Some d => if (d <? radix)%N then Some d else None
  | None => None
  end.

(** White space of one byte: TAB, LF, VT, FF, CR and the space.  The
    white space characters beyond ASCII are not recognised. *)
Definition is_space (c : ascii) : bool :=
  let n := N_of_ascii c in
  ((9 <=? n)%N && (n <=? 13)%N) || (n =? 32)%N.

Fixpoint skip_space (s : string) : string :=
  match s with
  | String c r => if is_space c then skip_space r else s
  | EmptyString => s
  end.

(** An optional sign: whether it is a minus, and the rest. *)
Definition read_sign (s : string) : bool * string :=
  match s with
  | String "-" r => (true, r)
  | String "+" r => (false, r)
  | _ => (false, s)
  end.

(** The longest run of digits at the start of [s], and the rest. *)
Fixpoint take_digits (radix : N) (s : string) : list N * string :=
  match s with
  | String c r =>
      match digit_val radix c with
      | Some d => let '(ds, rest) := take_digits radix r in (d :: ds, rest)
      | None => ([], s)
      end
  | EmptyString => ([], s)
  end.

Definition value_of (radix : N) (ds : list N) : N :=
  fold_left (fun acc d => (acc * radix + d)%N) ds 0%N.

Definition signed (neg : bool) (n : N) : Z :=
  if neg then - Z.of_N n else Z.of_N n.

(** [parseInt(s)] with no radix argument: leading white space and a sign
    are skipped, a [0x] prefix selects radix 16, and the longest run of
    digits is read; with no digit the result is [NaN].  The number read
    is exact here; JavaScript rounds it to a double, so that the two
    agree on the whole numbers a double holds ([safe_integer]) and part
    beyond them, where JavaScript ends with [Infinity]. *)
Definition parseInt (s : string) : number :=
  let '(neg, s1) := read_sign (skip_space s) in
  let '(radix, s2) :=
    match s1 with
    | String "0" (String "x" r) | String "0" (String "X" r) => (16%N, r)
    | _ => (10%N, s1)
    end in
  match take_digits radix s2 with
  | ([], _) => NaN
  | (ds, _) => of_Z (signed neg (value_of radix ds))
  end.

(** The exponent part of a decimal literal, when there is one. *)
Definition read_exponent (s : string) : Z :=
  match s with
  | String "e" r | String "E" r =>
      let '(neg, r1) := read_sign r in
      match take_digits 10 r1 with
      | ([], _) => 0
      | (ds, _) => signed neg (value_of 10 ds)
      end
  | _ => 0
  end.

(** [parseFloat(s)]: the longest prefix that is a decimal literal
    (digits, an optional fraction, an optional exponent), after white
    space and a sign; [NaN] when there is none.  The number read is
    exact here, where JavaScript rounds it to a double and gives
    [Infinity] beyond the range of doubles; the literal [Infinity] is
    outside this model. *)
Definition parseFloat (s : string) : number :=
  let '(neg, s1) := read_sign (skip_space s) in
  let '(ip, r1) := take_digits 10 s1 in
  let '(fp, r2) :=
    match r1 with
    | String "." r => take_digits 10 r
    | _ => ([], r1)
    end in
  match ip ++ fp with
  | [] => NaN
  | m =>
      let e := read_exponent r2 - Z.of_nat (length fp) in
      let c := signed neg (value_of 10 m) in
      if 0 <=? e then Num (Dec (c * pow10 (Z.to_nat e)) 0)
      else Num (Dec c (Z.to_nat (- e)))
  end.

(** *** Notions used to state the round trip *)

(** The whole numbers a double holds exactly: those below 2^53 in
    absolute value. *)
Definition safe_integer (z : Z) : bool := Z.abs z <? 2 ^ 53.

(** The number a list of digits stands for, least significant first. *)
Definition value_le (l : list N) : N :=
  fold_right (fun d acc => d + 10 * acc)%N 0%N l.

(** A text that does not go on with a digit. *)
Definition ends_digits (rest : string) : Prop :=
  match rest with
  | EmptyString => True
  | String c _ => digit_val 10 c = None
  end.

(** What follows the integer part in positional notation. *)
Definition after_int (rest : string) : Prop :=
  rest = EmptyString \/ exists r, rest = String "." r.

(** Reading in radix 10, as [parseInt] does unless the text starts
    with [0x]. *)
Definition read10 (s : string) : number :=
  match take_digits 10 s with
  | ([], _) => NaN
  | (ds, _) => of_Z (Z.of_N (value_of 10 ds))
  end.

End JS.

(** Printing and reading are not unfolded when a goal is simplified. *)
Arguments JS.toString : simpl never.
Arguments JS.toString_pos : simpl never.
Arguments JS.parseInt : simpl never.
Arguments JS.parseFloat : simpl never.
Arguments JS.digits : simpl never.

#[global] Instance dec_eq_dec : EqDecision JS.dec.
Proof. solve_decision. Defined.

#[global] Instance number_eq_dec : EqDecision JS.number.
Proof. solve_decision. Defined.

(** ** The web player ([PodcastApp]) *)
Module Player.

(** An episode of the catalog.  The description, publication date, play
    count and category are only rendered and are left out. *)
Record Episode : Type := {
  ep_id : N;
  ep_title : string;
  ep_audioUrl : string;
  ep_artwork : string;
  ep_duration : JS.number
}.

(** The audio element the player drives.  It is the browser's: the
    fields below are the attributes the player reads and writes, and
    the number of [timeupdate] tasks the element has queued (on a pause
    or at the end of a seek) and that have not run yet. *)
Record Audio : Type := {
  src : string;
  a_currentTime : JS.number;
  a_duration : JS.number;
  paused : bool;
  a_playbackRate : JS.number;
  queued : nat
}.

Record Analytics : Type := {
  totalPlays : N;
  totalTime : JS.number
}.

(** The object [saveData] stores under [podcastAppData]: the analytics
    and, per episode, its identifier and saved progress.  Its bookmarks,
    downloads and theme entries are left out, as no function below
    changes them. *)
Record SavedData : Type := {
  sd_analytics : Analytics;
  sd_episodes : list (N * JS.number)
}.

(** A value of [localStorage]: a plain text, or the JSON text of a
    [SavedData] object, kept as the object it encodes. *)
Inductive Stored : Type :=
| Text (s : string)
| Json (d : SavedData).

(** What the page shows: the mini player and the notifications issued
    so far, newest last.  The width of the progress bar is not kept. *)
Record Dom : Type := {
  miniTitle : string;
  miniArtwork : string;
  miniPlayBtn : bool;
  miniPlayerShown : bool;
  notifications : list (string * string)
}.

(** The reactions registered on a promise returned by [audio.play()]
    that has not settled yet: those of [playEpisode], which close over
    the episode, and the one of [togglePlayPause]. *)
Inductive Reaction : Type :=
| PlayEpisodeThen (episode : Episode)
| ToggleThen.

(** The fields of [PodcastApp] the playback functions use, the audio
    element, [localStorage] with the [setItem] calls made so far (oldest
    first), the page, and the [play()] promises that are still pending,
    oldest first. *)
Record State : Type := {
  currentEpisode : option Episode;
  isPlaying : bool;
  currentTime : JS.number;
  duration : JS.number;
  playbackRate : JS.number;
  episodes : list Episode;
  analytics : Analytics;
  audio : Audio;
  localStorage : gmap string Stored;
  writes : list (string * Stored);
  dom : Dom;
  pending : list Reaction
}.

#[global] Instance Episode_eq_dec : EqDecision Episode.
Proof. solve_decision. Defined.
#[global] Instance Audio_eq_dec : EqDecision Audio.
Proof. solve_decision. Defined.
#[global] Instance Analytics_eq_dec : EqDecision Analytics.
Proof. solve_decision. Defined.
#[global] Instance SavedData_eq_dec : EqDecision SavedData.
Proof. solve_decision. Defined.
#[global] Instance Stored_eq_dec : EqDecision Stored.
Proof. solve_decision. Defined.

(** *** Field updates *)

Definition set_currentEpisode (v : option Episode) (st : State) : State :=
  {| currentEpisode := v; isPlaying := isPlaying st;
     currentTime := currentTime st; duration := duration st;
     playbackRate := playbackRate st; episodes := episodes st;
     analytics := analytics st; audio := audio st;
     localStorage := localStorage st; writes := writes st;
     dom := dom st; pending := pending st |}.

Definition set_isPlaying (v : bool) (st : State) : State :=
  {| currentEpisode := currentEpisode st; isPlaying := v;
     currentTime := currentTime st; duration := duration st;
     playbackRate := playbackRate st; episodes := episodes st;
     analytics := analytics st; audio := audio st;
     localStorage := localStorage st; writes := writes st;
     dom := dom st; pending := pending st |}.

Definition set_currentTime (v : JS.number) (st : State) : State :=
  {| currentEpisode := currentEpisode st; isPlaying := isPlaying st;
     currentTime := v; duration := duration st;
     playbackRate := playbackRate st; episodes := episodes st;
     analytics := analytics st; audio := audio st;
     localStorage := localStorage st; writes := writes st;
     dom := dom st; pending := pending st |}.

Definition set_duration (v : JS.number) (st : State) : State :=
  {| currentEpisode := currentEpisode st; isPlaying := isPlaying st;
     currentTime := currentTime st; duration := v;
     playbackRate := playbackRate st; episodes := episodes st;
     analytics := analytics st; audio := audio st;
     localStorage := localStorage st; writes := writes st;
     dom := dom st; pending := pending st |}.

Definition set_playbackRate (v : JS.number) (st : State) : State :=
  {| currentEpisode := currentEpisode st; isPlaying := isPlaying st;
     currentTime := currentTime st; duration := duration st;
     playbackRate := v; episodes := episodes st;
     analytics := analytics st; audio := audio st;
     localStorage := localStorage st; writes := writes st;
     dom := dom st; pending := pending st |}.

Definition set_analytics (v : Analytics) (st : State) : State :=
  {| currentEpisode := currentEpisode st; isPlaying := isPlaying st;
     currentTime := currentTime st; duration := duration st;
     playbackRate := playbackRate st; episodes := episodes st;
     analytics := v; audio := audio st;
     localStorage := localStorage st; writes := writes st;
     dom := dom st; pending := pending st |}.

Definition set_audio (v : Audio) (st : State) : State :=
  {| currentEpisode := currentEpisode st; isPlaying := isPlaying st;
     currentTime := currentTime st; duration := duration st;
     playbackRate := playbackRate st; episodes := episodes st;
     analytics := analytics st; audio := v;
     localStorage := localStorage st; writes := writes st;
     dom := dom st; pending := pending st |}.

Definition set_localStorage (v : gmap string Stored) (st : State) : State :=
  {| currentEpisode := currentEpisode st; isPlaying := isPlaying st;
     currentTime := currentTime st; duration := duration st;
     playbackRate := playbackRate st; episodes := episodes st;
     analytics := analytics st; audio := audio st;
     localStorage := v; writes := writes st;
     dom := dom st; pending := pending st |}.

Definition set_writes (v : list (string * Stored)) (st : State) : State :=
  {| currentEpisode := currentEpisode st; isPlaying := isPlaying st;
     currentTime := currentTime st; duration := duration st;
     playbackRate := playbackRate st; episodes := episodes st;
     analytics := analytics st; audio := audio st;
     localStorage := localStorage st; writes := v;
     dom := dom st; pending := pending st |}.

Definition set_dom (v : Dom) (st : State) : State :=
  {| currentEpisode := currentEpisode st; isPlaying := isPlaying st;
     currentTime := currentTime st; duration := duration st;
     playbackRate := playbackRate st; episodes := episodes st;
     analytics := analytics st; audio := audio st;
     localStorage := localStorage st; writes := writes st;
     dom := v; pending := pending st |}.

Definition set_pending (v : list Reaction) (st : State) : State :=
  {| currentEpisode := currentEpisode st; isPlaying := isPlaying st;
     currentTime := currentTime st; duration := duration st;
     playbackRate := playbackRate st; episodes := episodes st;
     analytics := analytics st; audio := audio st;
     localStorage := localStorage st; writes := writes st;
     dom := dom st; pending := v |}.

(** *** The audio element *)

(** [audio.src = url]: the element starts loading the new resource; its
    position goes back to 0, its duration is unknown, it is paused and
    the tasks it had queued are removed.  The [play()] promises that
    are pending are kept as such: the element settles them at this
    point or later, which [settle] covers. *)
Definition audio_set_src (url : string) (a : Audio) : Audio :=
  {| src := url; a_currentTime := JS.of_Z 0; a_duration := JS.NaN;
     paused := true; a_playbackRate := a_playbackRate a; queued := 0 |}.

(** The media clock of the element moves to [t]. *)
Definition audio_advance (t : JS.number) (a : Audio) : Audio :=
  {| src := src a; a_currentTime := t; a_duration := a_duration a;
     paused := paused a; a_playbackRate := a_playbackRate a;
     queued := queued a |}.

(** [audio.currentTime = t], as the player assigns it.  While the
    metadata is not known the value is only kept as the position to
    start from; once it is known the element seeks, and queues a
    [timeupdate] when the seek is done.  The element also brings [t]
    into the range of the media, which is not modelled: where the
    player seeks on its own account it clamps with its own
    [duration]. *)
Definition audio_set_currentTime (t : JS.number) (a : Audio) : Audio :=
  {| src := src a; a_currentTime := t; a_duration := a_duration a;
     paused := paused a; a_playbackRate := a_playbackRate a;
     queued := match a_duration a with
               | JS.Num _ => S (queued a)
               | JS.NaN => queued a
               end |}.

Definition audio_set_duration (d : JS.number) (a : Audio) : Audio :=
  {| src := src a; a_currentTime := a_currentTime a; a_duration := d;
     paused := paused a; a_playbackRate := a_playbackRate a;
     queued := queued a |}.

Definition audio_set_paused (b : bool) (a : Audio) : Audio :=
  {| src := src a; a_currentTime := a_currentTime a;
     a_duration := a_duration a; paused := b;
     a_playbackRate := a_playbackRate a; queued := queued a |}.

Definition audio_set_playbackRate (r : JS.number) (a : Audio) : Audio :=
  {| src := src a; a_currentTime := a_currentTime a;
     a_duration := a_duration a; paused := paused a; a_playbackRate := r;
     queued := queued a |}.

Definition audio_set_queued (n : nat) (a : Audio) : Audio :=
  {| src := src a; a_currentTime := a_currentTime a;
     a_duration := a_duration a; paused := paused a;
     a_playbackRate := a_playbackRate a; queued := n |}.

(** [audio.play()]: the element leaves the paused state and returns a
    promise; [r] is registered on it. *)
Definition audio_play (r : Reaction) (st : State) : State :=
  set_pending (pending st ++ [r])
    (set_audio (audio_set_paused false (audio st)) st).

(** [audio.pause()]: an element that is not paused becomes paused and
    queues a [timeupdate] (and a [pause], for which the player has no
    listener); on a paused element nothing happens. *)
Definition audio_pause (st : State) : State :=
  let a := audio st in
  set_audio
    (audio_set_queued (if paused a then queued a else S (queued a))
       (audio_set_paused true a)) st.

(** *** The page *)

(** [showNotification(message, type)]; the default type is [info]. *)
Definition showNotification (message type : string) (st : State) : State :=
  let d := dom st in
  set_dom {| miniTitle := miniTitle d; miniArtwork := miniArtwork d;
             miniPlayBtn := miniPlayBtn d;
             miniPlayerShown := miniPlayerShown d;
             notifications := notifications d ++ [(message, type)] |} st.

Definition updateMiniPlayer (st : State) : State :=
  match currentEpisode st with
  | None => st
  | Some e =>
      let d := dom st in
      set_dom {| miniTitle := ep_title e; miniArtwork := ep_artwork e;
                 miniPlayBtn := isPlaying st;
                 miniPlayerShown := miniPlayerShown d;
                 notifications := notifications d |} st
  end.

Definition showMiniPlayer (st : State) : State :=
  let d := dom st in
  set_dom {| miniTitle := miniTitle d; miniArtwork := miniArtwork d;
             miniPlayBtn := miniPlayBtn d; miniPlayerShown := true;
             notifications := notifications d |} st.

(** [updateProgress] only sets the width of the progress bar, which the
    page model does not keep. *)
Definition updateProgress (st : State) : State := st.

(** *** Saved progress *)

(** [localStorage.setItem(key, value)]. *)
Definition setItem (key : string) (value : Stored) (st : State) : State :=
  set_writes (writes st ++ [(key, value)])
    (set_localStorage (<[key := value]> (localStorage st)) st).

(** The key [`episode_progress_${episodeId}`]. *)
Definition progress_key (episodeId : N) : string :=
  "episode_progress_" +:+ JS.toString (JS.of_Z (Z.of_N episodeId)).

(** [saved ? parseInt(saved) : 0].  The JSON text of an object starts
    with a brace, so [parseInt] finds no digit in it. *)
Definition getEpisodeProgress (episodeId : N) (st : State) : JS.number :=
  match localStorage st !! progress_key episodeId with
  | Some (Text "") => JS.of_Z 0
  | Some (Text saved) => JS.parseInt saved
  | Some (Json _) => JS.NaN
  | None => JS.of_Z 0
  end.

Arguments progress_key : simpl never.
Arguments getEpisodeProgress : simpl never.

Definition saveProgress (st : State) : State :=
  match currentEpisode st with
  | Some e =>
      if JS.gt (currentTime st) (JS.of_Z 0) then
        setItem (progress_key (ep_id e))
          (Text (JS.toString (currentTime st))) st
      else st
  | None => st
  end.

(** [saveData]: the object stored under [podcastAppData]. *)
Definition saveData (st : State) : State :=
  let data :=
    {| sd_analytics := analytics st;
       sd_episodes :=
         map (fun e => (ep_id e, getEpisodeProgress (ep_id e) st))
             (episodes st) |} in
  setItem "podcastAppData" (Json data) st.

Definition handleEpisodeEnd (st : State) : State :=
  let st1 := set_isPlaying false st in
  let a := analytics st1 in
  let st2 := set_analytics {| totalPlays := totalPlays a + 1;
                              totalTime := totalTime a |} st1 in
  showNotification "Episodio terminado" "info" (saveData st2).

Definition trackPlay (episode : Episode) (st : State) : State :=
  let a := analytics st in
  saveData
    (set_analytics
       {| totalPlays := totalPlays a + 1;
          totalTime := JS.add (totalTime a) (ep_duration episode) |} st).

(** *** Playback commands *)

Definition find_episode (episodeId : N) (st : State) : option Episode :=
  List.find (fun e => (ep_id e =? episodeId)%N) (episodes st).

(** [playEpisode(episodeId)].  The saved progress is a number that a
    double holds wherever the saved text reads as one here; on a text
    of digits beyond the range of doubles JavaScript reads [Infinity],
    and the assignment to [audio.currentTime] then throws before
    [play()] is called, which has no counterpart here. *)
Definition playEpisode (episodeId : N) (st : State) : State :=
  match find_episode episodeId st with
  | None => st
  | Some episode =>
      let st1 := set_currentEpisode (Some episode) st in
      let st2 := set_audio (audio_set_src (ep_audioUrl episode) (audio st1)) st1 in
      (* Restore progress if exists *)
      let progress := getEpisodeProgress episodeId st2 in
      let st3 :=
        if JS.gt progress (JS.of_Z 0)
        then set_audio (audio_set_currentTime progress (audio st2)) st2
        else st2 in
      audio_play (PlayEpisodeThen episode) st3
  end.

Definition togglePlayPause (st : State) : State :=
  match currentEpisode st with
  | None => st
  | Some _ =>
      let st1 :=
        if isPlaying st
        then set_isPlaying false (audio_pause st)
        else audio_play ToggleThen st in
      updateMiniPlayer st1
  end.

Definition skipForward (st : State) : State :=
  if JS.truthy (a_currentTime (audio st)) then
    set_audio
      (audio_set_currentTime
         (JS.min (JS.add (a_currentTime (audio st)) (JS.of_Z 30)) (duration st))
         (audio st)) st
  else st.

Definition skipBackward (st : State) : State :=
  if JS.truthy (a_currentTime (audio st)) then
    set_audio
      (audio_set_currentTime
         (JS.max (JS.sub (a_currentTime (audio st)) (JS.of_Z 15)) (JS.of_Z 0))
         (audio st)) st
  else st.

(** A function either returns or throws, with the state reached. *)
Inductive Outcome : Type :=
| Returned (st : State)
| Thrown (error : string) (st : State).

Definition state_of (o : Outcome) : State :=
  match o with
  | Returned st => st
  | Thrown _ st => st
  end.

(** [setPlaybackRate(rate)].  The element's [playbackRate] is a double
    attribute: assigning [NaN] to it throws a [TypeError], after the
    player's own field has been set.  A rate that is not finite, which
    [parseFloat] does not give here, throws in the same way, and the
    element may refuse a finite rate that it does not support; the
    rates of the allowed set are supported by every element. *)
Definition setPlaybackRate (rate : string) (st : State) : Outcome :=
  let st1 := set_playbackRate (JS.parseFloat rate) st in
  match playbackRate st1 with
  | JS.NaN => Thrown "TypeError" st1
  | r =>
      let st2 := set_audio (audio_set_playbackRate r (audio st1)) st1 in
      Returned (showNotification ("Velocidad: " +:+ rate +:+ "x") "info" st2)
  end.

(** *** Audio events and promise reactions *)

Definition on_loadedmetadata (st : State) : State :=
  updateProgress (set_duration (a_duration (audio st)) st).

Definition on_timeupdate (st : State) : State :=
  saveProgress (updateProgress (set_currentTime (a_currentTime (audio st)) st)).

Definition on_ended (st : State) : State := handleEpisodeEnd st.

Definition on_error (st : State) : State :=
  showNotification "Error al cargar el audio" "error" st.

(** The oldest [timeupdate] task the element has queued, if there is
    one, is run: the listener of [timeupdate] is called. *)
Definition deliver (st : State) : State :=
  match queued (audio st) with
  | O => st
  | S n => on_timeupdate (set_audio (audio_set_queued n (audio st)) st)
  end.

(** The reaction run when a [play()] promise is fulfilled ([ok]) or
    rejected.  [togglePlayPause] registers no rejection handler. *)
Definition react (r : Reaction) (ok : bool) (st : State) : State :=
  match r, ok with
  | PlayEpisodeThen episode, true =>
      let st1 := set_isPlaying true st in
      let st2 := showMiniPlayer (updateMiniPlayer st1) in
      showNotification ("Reproduciendo: " +:+ ep_title episode) "info"
        (trackPlay episode st2)
  | PlayEpisodeThen _, false =>
      showNotification "Error al reproducir el episodio" "error" st
  | ToggleThen, true => set_isPlaying true st
  | ToggleThen, false => st
  end.

(** The [i]-th pending promise settles and its reaction runs. *)
Definition settle (i : nat) (ok : bool) (st : State) : State :=
  match pending st !! i with
  | Some r => react r ok (set_pending (delete i (pending st)) st)
  | None => st
  end.

(** *** Runs *)

(** What can happen to the player: a command of the user, a move of the
    element's media clock (no handler runs), an event of the element,
    or the settling of a pending [play()] promise. *)
Inductive Event : Type :=
| PlayEpisode (episodeId : N)
| TogglePlayPause
| SkipForward
| SkipBackward
| SetPlaybackRate (rate : string)
| Clock (t : JS.number)
| LoadedMetadata (d : JS.number)
| TimeUpdate
| Ended
| AudioError
| Settle (i : nat) (ok : bool).

Definition step (ev : Event) (st : State) : State :=
  match ev with
  | PlayEpisode episodeId => playEpisode episodeId st
  | TogglePlayPause => togglePlayPause st
  | SkipForward => skipForward st
  | SkipBackward => skipBackward st
  | SetPlaybackRate rate => state_of (setPlaybackRate rate st)
  | Clock t => set_audio (audio_advance t (audio st)) st
  | LoadedMetadata d =>
      on_loadedmetadata (set_audio (audio_set_duration d (audio st)) st)
  | TimeUpdate => on_timeupdate st
  | Ended => on_ended st
  | AudioError => on_error st
  | Settle i ok => settle i ok st
  end.

Definition run (evs : list Event) (st : State) : State :=
  fold_left (fun s ev => step ev s) evs st.

(** *** The initial state *)

(** The sample catalog of [loadEpisodes]. *)
Definition sample_1 : Episode :=
  {| ep_id := 1;
     ep_title := "Introducción al Desarrollo Web Moderno";
     ep_audioUrl := "https://www.soundjay.com/misc/sounds/bell-ringing-05.wav";
     ep_artwork := "https://picsum.photos/300/300?random=1";
     ep_duration := JS.of_Z 2700 |}.

Definition sample_2 : Episode :=
  {| ep_id := 2;
     ep_title := "El Futuro de la Inteligencia Artificial";
     ep_audioUrl := "https://www.soundjay.com/misc/sounds/bell-ringing-05.wav";
     ep_artwork := "https://picsum.photos/300/300?random=2";
     ep_duration := JS.of_Z 3600 |}.

Definition sample_3 : Episode :=
  {| ep_id := 3;
     ep_title := "Productividad Personal: Técnicas Avanzadas";
     ep_audioUrl := "https://www.soundjay.com/misc/sounds/bell-ringing-05.wav";
     ep_artwork := "https://picsum.photos/300/300?random=3";
     ep_duration := JS.of_Z 2100 |}.

Definition sample_episodes : list Episode := [sample_1; sample_2; sample_3].

Definition new_Audio : Audio :=
  {| src := ""; a_currentTime := JS.of_Z 0; a_duration := JS.NaN;
     paused := true; a_playbackRate := JS.of_Z 1; queued := 0 |}.

Definition empty_dom : Dom :=
  {| miniTitle := ""; miniArtwork := ""; miniPlayBtn := false;
     miniPlayerShown := false; notifications := [] |}.

(** The state the constructor leaves, given what [localStorage] holds:
    [loadData] takes the analytics of the saved object when there is
    one.  On a text under [podcastAppData] that is not the JSON of an
    object [loadData] throws, which has no counterpart here: the
    analytics are then the initial ones.  The [startAnalytics] that
    [init()] calls is not among the sources and is taken to leave the
    fields below as they are. *)
Definition init (store : gmap string Stored) : State :=
  {| currentEpisode := None; isPlaying := false;
     currentTime := JS.of_Z 0; duration := JS.of_Z 0;
     playbackRate := JS.of_Z 1; episodes := sample_episodes;
     analytics :=
       match store !! "podcastAppData" with
       | Some (Json d) => sd_analytics d
       | _ => {| totalPlays := 0; totalTime := JS.of_Z 0 |}
       end;
     audio := new_Audio; localStorage := store; writes := [];
     dom := empty_dom; pending := [] |}.

(** *** Progress ticks *)

(** One progress tick: the media clock is at [p] and the element
    raises [timeupdate]. *)
Definition handle_tick (p : JS.number) (st : State) : State :=
  on_timeupdate (step (Clock p) st).

(** Ticks, each with the time (in milliseconds) at which the element
    raised it, handled in the order of the list.  The listener is not
    given that time; the event loop runs the listeners in the order in
    which the element raised the events, so that the times of a list of
    ticks that the player can receive never go back ([ascending]). *)
Definition handle_ticks (ticks : list (Z * JS.number)) (st : State) : State :=
  fold_left (fun s tick => handle_tick (snd tick) s) ticks st.

(** The position write of a tick for episode [e]. *)
Definition tick_write (e : Episode) (tick : Z * JS.number) : string * Stored :=
  (progress_key (ep_id e), Text (JS.toString (snd tick))).

(** The [setItem] calls made between [st] and a later state [st']. *)
Definition new_writes (st st' : State) : list (string * Stored) :=
  skipn (length (writes st)) (writes st').

(** The times of the ticks whose handling wrote to the store. *)
Fixpoint write_times (ticks : list (Z * JS.number)) (st : State) : list Z :=
  match ticks with
  | [] => []
  | (ts, p) :: rest =>
      let st' := handle_tick p st in
      match new_writes st st' with
      | [] => write_times rest st'
      | _ :: _ => ts :: write_times rest st'
      end
  end.

(** The times of a list never go back. *)
Definition ascending (times : list Z) : Prop :=
  forall i j a b, (i < j)%nat ->
    times !! i = Some a -> times !! j = Some b -> a <= b.

(** Any two entries of a list of times are at least [interval] apart. *)
Definition spaced (interval : Z) (times : list Z) : Prop :=
  forall i j a b, (i < j)%nat ->
    times !! i = Some a -> times !! j = Some b -> interval <= b - a.


Definition positive_tick (tick : Z * JS.number) : Prop :=
  JS.gt (snd tick) (JS.of_Z 0) = true.

(** *** The engine state and the allowed rates of the specification *)

(** The playback state of the specification, as the player holds it:
    the current episode, the playing flag, the position, the duration
    and the rate. *)
Definition engine_state (st : State)
    : option Episode * bool * JS.number * JS.number * JS.number :=
  (currentEpisode st, isPlaying st, currentTime st, duration st,
   playbackRate st).

(** 0.5, 0.75, 1.0, 1.25, 1.5 and 2.0. *)
Definition allowed_rates : list JS.dec :=
  [JS.Dec 5 1; JS.Dec 75 2; JS.Dec 1 0; JS.Dec 125 2; JS.Dec 15 1; JS.Dec 2 0].

Definition allowed (r : JS.dec) : bool :=
  existsb (JS.dec_eqb r) allowed_rates.

(** The values offered by the rate selector of the settings page. *)
Definition offered_rates : list string :=
  ["0.5"; "0.75"; "1"; "1.25"; "1.5"; "2"].

End Player.

(** ** The restoration prompt ([PlaybackRestoration]) *)
Module Restoration.

(** An episode as the component uses it. *)
Record Episode : Type := {
  e_id : string;
  e_title : string;
  e_duration : JS.number
}.

(** The saved session pointer handed out by [useAppLifecycle]. *)
Record LastPlayback : Type := {
  episodeId : string;
  position : JS.number
}.

(** The component's state ([episode], [isVisible], [isLoading]) with the
    [lastPlaybackState] of the lifecycle hook. *)
Record Coordinator : Type := {
  episode : option Episode;
  isVisible : bool;
  isLoading : bool;
  lastPlaybackState : option LastPlayback
}.

Definition setEpisode (e : Episode) (c : Coordinator) : Coordinator :=
  {| episode := Some e; isVisible := isVisible c; isLoading := isLoading c;
     lastPlaybackState := lastPlaybackState c |}.

Definition setIsVisible (b : bool) (c : Coordinator) : Coordinator :=
  {| episode := episode c; isVisible := b; isLoading := isLoading c;
     lastPlaybackState := lastPlaybackState c |}.

Definition setIsLoading (b : bool) (c : Coordinator) : Coordinator :=
  {| episode := episode c; isVisible := isVisible c; isLoading := b;
     lastPlaybackState := lastPlaybackState c |}.

(** Modelled from the spec: [clearLastPlaybackState] of the
    [useAppLifecycle] hook, which is not among the sources; it clears
    the saved session pointer. *)
Definition clearLastPlaybackState (c : Coordinator) : Coordinator :=
  {| episode := episode c; isVisible := isVisible c;
     isLoading := isLoading c; lastPlaybackState := None |}.

(** What awaiting [podcastService.getEpisodeById(id)] can give: an
    episode, a value that is not one ([null]), or a rejection. *)
Inductive Lookup : Type :=
| Found (e : Episode)
| NotFound
| Failed.

Definition loadEpisodeForRestoration (getEpisodeById : string -> Lookup)
    (c : Coordinator) : Coordinator :=
  match lastPlaybackState c with
  | None => c
  | Some l =>
      if String.eqb (episodeId l) "" then c
      else
        match getEpisodeById (episodeId l) with
        | Found episodeData => setIsVisible true (setEpisode episodeData c)
        | NotFound => c
        | Failed =>
            (* Clear invalid state *)
            clearLastPlaybackState c
        end
  end.

(** The effect run when the component mounts. *)
Definition onMount (getEpisodeById : string -> Lookup)
    (c : Coordinator) : Coordinator :=
  match lastPlaybackState c with
  | Some l =>
      if String.eqb (episodeId l) "" then c
      else loadEpisodeForRestoration getEpisodeById c
  | None => c
  end.

(** The component renders the prompt unless one of the three is
    missing. *)
Definition promptShown (c : Coordinator) : bool :=
  isVisible c && bool_decide (is_Some (episode c))
  && bool_decide (is_Some (lastPlaybackState c)).

(** An awaited call either resolves or rejects, with the state of the
    service it leaves. *)
Inductive Awaited (A : Type) : Type :=
| Resolved (a : A)
| Rejected (error : string) (a : A).
Arguments Resolved {A} a.
Arguments Rejected {A} error a.

(** The snapshot [getState()] returns, with the fields its callers
    read; [isLoading] and [position] are [audioLoading] and
    [audioPosition] here, the component having fields of those names. *)
Record AudioState : Type := {
  currentEpisode : option Episode;
  isPlaying : bool;
  audioLoading : bool;
  audioPosition : JS.number;
  duration : JS.number;
  playbackRate : JS.number
}.

(** The operations of [AudioService] that the component calls, and its
    [getState].  The service itself is not among the sources. *)
Class AudioService (Engine : Type) : Type := {
  loadEpisode : Episode -> Engine -> Awaited Engine;
  seekTo : JS.number -> Engine -> Awaited Engine;
  getState : Engine -> AudioState
}.

Section Handlers.
Context {Engine : Type} `{AudioService Engine}.

Definition handleRestore (c : Coordinator) (s : Engine)
    : Coordinator * Engine :=
  match episode c, lastPlaybackState c with
  | Some ep, Some l =>
      let c1 := setIsLoading true c in
      (* Load the episode *)
      match loadEpisode ep s with
      | Rejected _ s1 => (setIsLoading false c1, s1)
      | Resolved s1 =>
          (* Seek to the saved position *)
          match seekTo (position l) s1 with
          | Rejected _ s2 => (setIsLoading false c1, s2)
          | Resolved s2 =>
              (* Don't auto-play - let user decide *)
              (* Clear the restoration state *)
              (setIsLoading false
                 (setIsVisible false (clearLastPlaybackState c1)), s2)
          end
      end
  | _, _ => (c, s)
  end.

Definition handleDismiss (c : Coordinator) : Coordinator :=
  setIsVisible false (clearLastPlaybackState c).
End Handlers.

End Restoration.

(** ** The playback engine of the specification

    Modelled from the spec: the [AudioService] behind [loadEpisode],
    [seekTo] and [getState] is not among the sources.  This is the
    engine of section 4.1: its phases, the load that ends in
    [Ready(Paused)] once the metadata resolves, and the seek that
    clamps into [[0, duration]]. *)
Module SpecEngine.
Import Restoration.

(** Modelled from the spec: the phases of the engine's state machine
    (section 4.1), [Ready] with its two sub-states. *)
Inductive Phase : Type :=
| Idle
| Loading
| ReadyPaused
| Playing
| PhaseEnded
| PhaseError.

(** Modelled from the spec: the playback state of section 3, with the
    generation token of the loads and the checkpoint store. *)
Record Engine : Type := {
  phase : Phase;
  current : option Episode;
  pos : JS.number;
  dur : JS.number;
  rate : JS.number;
  generation : nat;
  checkpoints : gmap string JS.number
}.

(** Modelled from the spec: the clamping of [seekTo],
    [max(0, min(v, d))]. *)
Definition clamp (v d : JS.number) : JS.number :=
  JS.max (JS.of_Z 0) (JS.min v d).

(** Modelled from the spec: [loadEpisode] of the absent service,
    awaited.  The generation moves on; when the backend
    reports the metadata (the duration is then known) the engine is
    [Ready(Paused)], at the saved position if there is one and at 0
    otherwise; when it reports a failure the engine is in [Error] and
    the call rejects with [LoadError]. *)
Definition spec_loadEpisode (metadata : Episode -> option JS.number)
    (ep : Episode) (s : Engine) : Awaited Engine :=
  match metadata ep with
  | Some d =>
      Resolved
        {| phase := ReadyPaused; current := Some ep;
           pos := match checkpoints s !! e_id ep with
                  | Some p => clamp p d
                  | None => JS.of_Z 0
                  end;
           dur := d; rate := rate s; generation := S (generation s);
           checkpoints := checkpoints s |}
  | None =>
      Rejected "LoadError"
        {| phase := PhaseError; current := Some ep; pos := JS.of_Z 0;
           dur := JS.NaN; rate := rate s; generation := S (generation s);
           checkpoints := checkpoints s |}
  end.

(** Modelled from the spec: [seekTo] of the absent service, awaited.
    With no duration known it rejects with
    [SeekError] and changes nothing; otherwise the position is the
    clamped value, the phase is kept, and the checkpoint is written. *)
Definition spec_seekTo (v : JS.number) (s : Engine) : Awaited Engine :=
  match phase s, current s with
  | (ReadyPaused | Playing | PhaseEnded), Some ep =>
      let p := clamp v (dur s) in
      Resolved
        {| phase := phase s; current := current s; pos := p; dur := dur s;
           rate := rate s; generation := generation s;
           checkpoints := <[e_id ep := p]> (checkpoints s) |}
  | _, _ => Rejected "SeekError" s
  end.

(** Modelled from the spec: [getState] of the absent service, the
    snapshot of the engine. *)
Definition spec_getState (s : Engine) : AudioState :=
  {| currentEpisode := current s;
     isPlaying := match phase s with Playing => true | _ => false end;
     audioLoading := match phase s with Loading => true | _ => false end;
     audioPosition := pos s; duration := dur s; playbackRate := rate s |}.

(** Modelled from the spec: the service, over a backend that reports
    the metadata of an episode or fails. *)
Definition spec_service (metadata : Episode -> option JS.number)
    : AudioService Engine :=
  {| loadEpisode := spec_loadEpisode metadata; seekTo := spec_seekTo;
     getState := spec_getState |}.

(** Modelled from the spec: the engine as initialised, with no
    episode loaded. *)
Definition idle : Engine :=
  {| phase := Idle; current := None; pos := JS.of_Z 0; dur := JS.NaN;
     rate := JS.of_Z 1; generation := 0; checkpoints := ∅ |}.

(** Modelled from the spec: the engine is [Ready(Paused)] on [ep], that
    is loaded, and neither loading nor playing. *)
Definition paused_on (ep : Episode) (a : AudioState) : Prop :=
  currentEpisode a = Some ep /\ isPlaying a = false /\ audioLoading a = false.

(** Modelled from the spec: the contracts of section 4.1 for the two
    calls of the absent service.  A load that
    resolves leaves the engine [Ready(Paused)] on the episode; a seek
    that resolves keeps the episode, the phase and the duration, and
    sets the position to the clamped value. *)
Class AudioServiceLaws (Engine : Type) `{AudioService Engine} : Prop := {
  load_resolved :
    forall ep s s', loadEpisode ep s = Resolved s' ->
      paused_on ep (getState s');
  seek_resolved :
    forall v s s', seekTo v s = Resolved s' ->
      currentEpisode (getState s') = currentEpisode (getState s) /\
      isPlaying (getState s') = isPlaying (getState s) /\
      audioLoading (getState s') = audioLoading (getState s) /\
      duration (getState s') = duration (getState s) /\
      audioPosition (getState s') = clamp v (duration (getState s))
}.

End SpecEngine.

(** ** The statements of the specification, as it words them

    Each is stated here on the player as the specification gives it;
    the theorems below settle which of them the player meets. *)
Module Stated.
Import Player.

(** A load issued while another is outstanding supersedes it: the
    current episode is the second one, and the late settling of the
    first [play()] promise leaves the engine state as it was. *)
Definition stale_load_discarded : Prop :=
  forall (st : State) (A B : Episode) (ok : bool),
    find_episode (ep_id A) st = Some A ->
    find_episode (ep_id B) st = Some B ->
    let st2 := playEpisode (ep_id B) (playEpisode (ep_id A) st) in
    currentEpisode st2 = Some B /\
    engine_state (settle (length (pending st)) ok st2) = engine_state st2.

(** Skipping forward from [p] gives [min(p + 30, d)] and skipping
    backward gives [max(p - 15, 0)], for a known duration [d]. *)
Definition skip_clamps : Prop :=
  forall (st : State) (p d : JS.dec),
    a_currentTime (audio st) = JS.Num p -> duration st = JS.Num d ->
    JS.dec_leb (JS.Dec 0 0) p = true -> JS.dec_leb p d = true ->
    a_currentTime (audio (skipForward st))
    = JS.min (JS.add (JS.Num p) (JS.of_Z 30)) (JS.Num d) /\
    a_currentTime (audio (skipBackward st))
    = JS.max (JS.sub (JS.Num p) (JS.of_Z 15)) (JS.of_Z 0).

(** Pausing while the element plays writes the checkpoint of the
    current episode at the position the element is at, the write being
    looked for up to the end of the [timeupdate] task that the pause
    makes the element queue. *)
Definition pause_forces_checkpoint : Prop :=
  forall (st : State) (e : Episode),
    currentEpisode st = Some e -> isPlaying st = true ->
    paused (audio st) = false ->
    In (progress_key (ep_id e), Text (JS.toString (a_currentTime (audio st))))
       (new_writes st (deliver (togglePlayPause st))).

(** There is an interval such that two writes of the position are
    never closer than it, however close the ticks are. *)
Definition writes_throttled : Prop :=
  exists interval : Z, 0 < interval /\
    forall (st : State) (e : Episode) (ticks : list (Z * JS.number)),
      currentEpisode st = Some e -> ascending (map fst ticks) ->
      spaced interval (write_times ticks st).

(** A rate outside the allowed set is rejected with [InvalidRateError]
    and the stored rate is unchanged; a rate inside it is applied. *)
Definition invalid_rate_rejected : Prop :=
  (forall (st : State) (rate : string),
     match JS.parseFloat rate with
     | JS.Num r => allowed r = false
     | JS.NaN => True
     end ->
     exists st', setPlaybackRate rate st = Thrown "InvalidRateError" st' /\
                 playbackRate st' = playbackRate st) /\
  (forall (st : State) (rate : string) (r : JS.dec),
     JS.parseFloat rate = JS.Num r -> allowed r = true ->
     exists st', setPlaybackRate rate st = Returned st' /\
                 playbackRate st' = JS.Num r).

(** Loading an episode with saved progress ends at the saved position
    and not playing, once the metadata and the [play()] promise have
    settled. *)
Definition load_never_autoplays : Prop :=
  forall (st : State) (e : Episode) (d : JS.number) (ok : bool),
    find_episode (ep_id e) st = Some e -> isPlaying st = false ->
    JS.gt (getEpisodeProgress (ep_id e) st) (JS.of_Z 0) = true ->
    let st1 := playEpisode (ep_id e) st in
    let st2 := settle (length (pending st)) ok (step (LoadedMetadata d) st1) in
    a_currentTime (audio st2) = getEpisodeProgress (ep_id e) st /\
    isPlaying st2 = false.


(** Resume, with the prompt up for a resolved episode, leaves the
    engine paused on that episode, at the saved position. *)
Definition restore_at_saved_position : Prop :=
  forall (Engine : Type) (service : Restoration.AudioService Engine)
         (laws : SpecEngine.AudioServiceLaws Engine)
         (c : Restoration.Coordinator) (s : Engine)
         (ep : Restoration.Episode) (l : Restoration.LastPlayback),
    Restoration.episode c = Some ep ->
    Restoration.lastPlaybackState c = Some l ->
    let '(_, s') := Restoration.handleRestore c s in
    SpecEngine.paused_on ep (Restoration.getState s') /\
    Restoration.audioPosition (Restoration.getState s')
    = Restoration.position l.

(** The lookup not finding the saved episode clears the saved pointer
    and shows no prompt. *)
Definition unresolvable_cleared : Prop :=
  forall (getEpisodeById : string -> Restoration.Lookup)
         (c : Restoration.Coordinator) (l : Restoration.LastPlayback),
    Restoration.lastPlaybackState c = Some l ->
    Restoration.episodeId l <> ""%string ->
    (getEpisodeById (Restoration.episodeId l) = Restoration.NotFound \/
     getEpisodeById (Restoration.episodeId l) = Restoration.Failed) ->
    let c' := Restoration.onMount getEpisodeById c in
    Restoration.lastPlaybackState c' = None /\
    Restoration.promptShown c' = false.

End Stated.

(** ** Scenarios

    The concrete states and inputs at which the properties below are
    evaluated. *)
Module Scenario.
Import Player.

(** Episode 1 has been asked for on a fresh player. *)
Definition loading_1 : State := playEpisode 1 (init ∅).

(** Episode 2 has been asked for while episode 1 was still loading. *)
Definition loading_2_after_1 : State := playEpisode 2 loading_1.

(** Episode 1 plays from the start and its duration, 2700 s, is known. *)
Definition at_start_2700 : State :=
  run [PlayEpisode 1; Settle 0 true; LoadedMetadata (JS.of_Z 2700)] (init ∅).

(** Episode 1 plays, a tick came at 124.8 s, and the element has since
    reached 125 s. *)
Definition playing_at_125 : State :=
  run [PlayEpisode 1; Settle 0 true; Clock (JS.Num (JS.Dec 1248 1));
       TimeUpdate; Clock (JS.of_Z 125)] (init ∅).

(** Episode 1 plays and a tick came at 125.5 s. *)
Definition ticked_at_125_5 : State :=
  run [PlayEpisode 1; Settle 0 true; Clock (JS.Num (JS.Dec 1255 1));
       TimeUpdate] (init ∅).


(** Episode 1 was left at 125 s in an earlier session. *)
Definition with_progress_125 : State :=
  init {[ "episode_progress_1"%string := Text "125" ]}.

(** Four ticks a quarter of a second apart. *)
Definition quarter_second_ticks : list (Z * JS.number) :=
  [(0, JS.Num (JS.Dec 25 2)); (250, JS.Num (JS.Dec 5 1));
   (500, JS.Num (JS.Dec 75 2)); (750, JS.of_Z 1)].

(** Two ticks [gap] milliseconds apart. *)
Definition two_ticks (gap : Z) : list (Z * JS.number) :=
  [(0, JS.of_Z 1); (gap, JS.of_Z 2)].

(** A cold start with a saved pointer to episode [E1] at 125 s. *)
Definition saved_E1 : Restoration.LastPlayback :=
  {| Restoration.episodeId := "E1"; Restoration.position := JS.of_Z 125 |}.

Definition cold_start_E1 : Restoration.Coordinator :=
  {| Restoration.episode := None; Restoration.isVisible := false;
     Restoration.isLoading := false;
     Restoration.lastPlaybackState := Some saved_E1 |}.

(** Episode [E1], of 2700 s. *)
Definition episode_E1 : Restoration.Episode :=
  {| Restoration.e_id := "E1"; Restoration.e_title := "E1";
     Restoration.e_duration := JS.of_Z 2700 |}.

(** The prompt is up: the catalog has found [E1]. *)
Definition prompt_E1 : Restoration.Coordinator :=
  Restoration.onMount (fun _ => Restoration.Found episode_E1) cold_start_E1.

(** The prompt is up for [E1], of 2700 s, with a saved pointer at
    5000 s. *)
Definition saved_E1_beyond : Restoration.LastPlayback :=
  {| Restoration.episodeId := "E1"; Restoration.position := JS.of_Z 5000 |}.

Definition prompt_E1_beyond : Restoration.Coordinator :=
  Restoration.onMount (fun _ => Restoration.Found episode_E1)
    {| Restoration.episode := None; Restoration.isVisible := false;
       Restoration.isLoading := false;
       Restoration.lastPlaybackState := Some saved_E1_beyond |}.

(** A backend that reports the duration of every episode. *)
Definition known_duration (ep : Restoration.Episode) : option JS.number :=
  Some (Restoration.e_duration ep).

End Scenario.

(** ** More of the player

    The functions of [PodcastApp] around the playback core: the time
    display, the selection of an episode, and the library (bookmarks,
    downloads, theme, reset). *)

(** *** Arithmetic of the time display *)
Module JSMath.
Import JS.

(** [Math.floor(a / k)] for a whole [k] above 0, the quotient being
    taken exactly, where JavaScript divides in doubles: the two agree
    as long as [a] is a number that a double holds. *)
Definition floor_div (a : number) (k : Z) : number :=
  match a with
  | NaN => NaN
  | Num d => of_Z (coef d / (k * pow10 (scale d)))
  end.

(** [a % k] for a whole [k] above 0: the remainder has the sign of [a]. *)
Definition rem (a : number) (k : Z) : number :=
  match a with
  | NaN => NaN
  | Num d => Num (Dec (Z.rem (coef d) (k * pow10 (scale d))) (scale d))
  end.

(** [Math.floor(a)]. *)
Definition floor (a : number) : number := floor_div a 1.

(** [a || b] on numbers. *)
Definition or_else (a b : number) : number :=
  if truthy a then a else b.

(** [s.padStart(n, c)]. *)
Definition padStart (n : nat) (c : ascii) (s : string) : string :=
  string_of_list_ascii (repeat c (n - String.length s)) +:+ s.

End JSMath.

Module Display.
Import JS JSMath.

(** [formatTime(seconds)]. *)
Definition formatTime (seconds : number) : string :=
  let hours := floor_div seconds 3600 in
  let minutes := floor_div (rem seconds 3600) 60 in
  let secs := floor (rem seconds 60) in
  if gt hours (of_Z 0) then
    toString hours +:+ ":" +:+ padStart 2 "0" (toString minutes) +:+ ":"
    +:+ padStart 2 "0" (toString secs)
  else
    toString minutes +:+ ":" +:+ padStart 2 "0" (toString secs).

(** The text of a whole number below 100 in two digits. *)
Definition two_digits (n : Z) : string :=
  string_of_digits [Z.to_N (n / 10); Z.to_N (n mod 10)].

End Display.

Arguments Display.formatTime : simpl never.

(** *** Selecting an episode *)
Module Selection.
Import Player.

(** [selectEpisode(episodeId)]; the section it then shows is not part
    of the page model. *)
Definition selectEpisode (episodeId : N) (st : State) : State :=
  match find_episode episodeId st with
  | Some episode => set_currentEpisode (Some episode) st
  | None => st
  end.

End Selection.

(** *** Keyboard shortcuts *)
Module Keyboard.
Import Player.

(** The [keydown] listener of [setupEventListeners]: [in_input] tells
    whether the target of the event is an [INPUT] element, [code] is
    the code of the key. *)
Definition keydown (in_input : bool) (code : string) (st : State) : State :=
  if in_input then st
  else if String.eqb code "Space" then togglePlayPause st
  else if String.eqb code "ArrowLeft" then skipBackward st
  else if String.eqb code "ArrowRight" then skipForward st
  else st.

End Keyboard.

(** *** The library: bookmarks, downloads, theme *)
Module Library.
Import Player.

(** A bookmark; its creation date is only rendered and is left out. *)
Record Bookmark : Type := {
  b_id : N;
  b_episodeId : N;
  b_episodeTitle : string;
  b_timestamp : JS.number;
  b_note : string
}.

(** The player with the fields [bookmarks], [downloads] and [theme] of
    [PodcastApp], and the seeks that [playFromBookmark] has scheduled
    and that have not run yet, oldest first. *)
Record App : Type := {
  player : State;
  bookmarks : list Bookmark;
  downloads : list N;
  theme : string;
  timers : list JS.number
}.

Definition set_player (v : State) (app : App) : App :=
  {| player := v; bookmarks := bookmarks app; downloads := downloads app;
     theme := theme app; timers := timers app |}.

Definition set_bookmarks (v : list Bookmark) (app : App) : App :=
  {| player := player app; bookmarks := v; downloads := downloads app;
     theme := theme app; timers := timers app |}.

Definition set_downloads (v : list N) (app : App) : App :=
  {| player := player app; bookmarks := bookmarks app; downloads := v;
     theme := theme app; timers := timers app |}.


Definition set_timers (v : list JS.number) (app : App) : App :=
  {| player := player app; bookmarks := bookmarks app;
     downloads := downloads app; theme := theme app; timers := v |}.

(** [saveData] and [showNotification], on the player part.  The saved
    object of the model has no entry for the bookmarks, the downloads
    and the theme, so what a reload finds of them is not modelled. *)
Definition save (app : App) : App :=
  set_player (saveData (player app)) app.

Definition notify (message : string) (app : App) : App :=
  set_player (showNotification message "info" (player app)) app.

(** The application the constructor leaves when [localStorage] is
    empty: no bookmark, no download, the dark theme. *)
Definition fresh : App :=
  {| player := init ∅; bookmarks := []; downloads := [];
     theme := "dark"; timers := [] |}.

(** [toggleBookmark(episodeId)], [now] being what [Date.now()] gives. *)
Definition toggleBookmark (now : N) (episodeId : N) (app : App) : App :=
  match find_episode episodeId (player app) with
  | None => app
  | Some episode =>
      let bookmark :=
        {| b_id := now; b_episodeId := episodeId;
           b_episodeTitle := ep_title episode;
           b_timestamp :=
             JSMath.or_else (currentTime (player app)) (JS.of_Z 0);
           b_note := "" |} in
      notify "Marcador añadido"
        (save (set_bookmarks (bookmarks app ++ [bookmark]) app))
  end.

(** [addBookmark()], [note] being what the prompt gives ([None] when it
    is cancelled). *)
Definition addBookmark (now : N) (note : option string) (app : App) : App :=
  match currentEpisode (player app) with
  | None => app
  | Some e =>
      let bookmark :=
        {| b_id := now; b_episodeId := ep_id e;
           b_episodeTitle := ep_title e;
           b_timestamp := currentTime (player app);
           b_note := match note with Some s => s | None => "" end |} in
      notify "Marcador añadido"
        (save (set_bookmarks (bookmarks app ++ [bookmark]) app))
  end.

(** [bookmarks.findIndex(b => b.id === bookmarkId)]. *)
Definition findIndex (bookmarkId : N) (l : list Bookmark) : option nat :=
  fst <$> list_find (fun b => b_id b = bookmarkId) l.

(** [deleteBookmark(bookmarkId)]; the refresh of the view is not part
    of the page model. *)
Definition deleteBookmark (bookmarkId : N) (app : App) : App :=
  match findIndex bookmarkId (bookmarks app) with
  | Some index =>
      notify "Marcador eliminado"
        (save (set_bookmarks (delete index (bookmarks app)) app))
  | None => app
  end.

(** [playFromBookmark(bookmarkId)]: the seek to the bookmark is
    scheduled half a second after the play. *)
Definition playFromBookmark (bookmarkId : N) (app : App) : App :=
  match List.find (fun b => (b_id b =? bookmarkId)%N) (bookmarks app) with
  | None => app
  | Some bookmark =>
      match find_episode (b_episodeId bookmark) (player app) with
      | None => app
      | Some episode =>
          set_timers (timers app ++ [b_timestamp bookmark])
            (set_player (playEpisode (ep_id episode) (player app)) app)
      end
  end.

(** The [i]-th scheduled seek runs: [audio.currentTime = timestamp]. *)
Definition fire_timer (i : nat) (app : App) : App :=
  match timers app !! i with
  | Some timestamp =>
      set_timers (delete i (timers app))
        (set_player
           (set_audio
              (audio_set_currentTime timestamp (audio (player app)))
              (player app)) app)
  | None => app
  end.

(** [downloads.indexOf(episodeId)]. *)
Definition indexOf (episodeId : N) (l : list N) : option nat :=
  fst <$> list_find (fun x => x = episodeId) l.

(** [toggleDownload(episodeId)]; the refresh of the view is not part of
    the page model. *)
Definition toggleDownload (episodeId : N) (app : App) : App :=
  let app1 :=
    match indexOf episodeId (downloads app) with
    | Some index =>
        notify "Descarga eliminada"
          (set_downloads (delete index (downloads app)) app)
    | None =>
        notify "Episodio descargado"
          (set_downloads (downloads app ++ [episodeId]) app)
    end in
  save app1.



(** [clearData()], [confirmed] being the answer to the confirmation;
    the section it then shows is not part of the page model. *)
Definition clearData (confirmed : bool) (app : App) : App :=
  if confirmed then
    let app1 := set_downloads [] (set_bookmarks [] app) in
    let st := player app1 in
    let st1 :=
      set_analytics {| totalPlays := 0; totalTime := JS.of_Z 0 |} st in
    let st2 := set_localStorage ∅ st1 in
    notify "Datos limpiados" (set_player st2 app1)
  else app.

End Library.

(** *** What holds along every run *)
Module Invariant.
Import Player.


(** Without a current episode nothing plays and no [play()] is pending. *)
Definition idle_without_episode (st : State) : Prop :=
  currentEpisode st = None -> isPlaying st = false /\ pending st = [].




(** The events other than [loadedmetadata]. *)
Definition not_metadata (ev : Event) : Prop :=
  match ev with
  | LoadedMetadata _ => False
  | _ => True
  end.

End Invariant.

(** *** More scenarios *)
Module Case.
Import Player.

(** Episode 1 plays before its metadata has arrived, and the element
    has reached 10 s. *)
Definition no_metadata_at_10 : State :=
  run [PlayEpisode 1; Settle 0 true; Clock (JS.of_Z 10)] (init ∅).

(** Episode 1 plays, duration known, and the element has reached
    2680.5 s. *)
Definition near_end : State :=
  run [PlayEpisode 1; Settle 0 true; LoadedMetadata (JS.of_Z 2700);
       Clock (JS.Num (JS.Dec 26805 1))] (init ∅).

(** The library of a fresh player in which episode 1 plays and a tick
    came at 125.5 s. *)
Definition library_at_125_5 : Library.App :=
  Library.set_player Scenario.ticked_at_125_5 Library.fresh.

(** Episodes 2 and 3 downloaded, in that order. *)
Definition two_downloads : Library.App :=
  Library.toggleDownload 3 (Library.toggleDownload 2 Library.fresh).

(** A service whose load fails, and one whose seek fails.  Their state
    counts the calls: a load adds 1 and a seek adds 10. *)
Definition nothing_loaded : Restoration.AudioState :=
  {| Restoration.currentEpisode := None; Restoration.isPlaying := false;
     Restoration.audioLoading := false;
     Restoration.audioPosition := JS.of_Z 0;
     Restoration.duration := JS.NaN;
     Restoration.playbackRate := JS.of_Z 1 |}.

Definition failing_load : Restoration.AudioService nat :=
  {| Restoration.loadEpisode :=
       fun _ s => Restoration.Rejected "LoadError" (S s);
     Restoration.seekTo := fun _ s => Restoration.Resolved (s + 10)%nat;
     Restoration.getState := fun _ => nothing_loaded |}.

Definition failing_seek : Restoration.AudioService nat :=
  {| Restoration.loadEpisode := fun _ s => Restoration.Resolved (S s);
     Restoration.seekTo :=
       fun _ s => Restoration.Rejected "SeekError" (s + 10)%nat;
     Restoration.getState := fun _ => nothing_loaded |}.

End Case.

(** * Properties *)

(** ** Numbers and their text *)
Module JSFacts.
Import JS.
#[local] Open Scope N_scope.

Lemma digits_le_small n : n < 10 -> digits_le n = [n].
Proof.
  intros Hn. simp digits_le. destruct (decide (n < 10)); [reflexivity | lia].
Qed.

Lemma digits_le_step n :
  10 <= n -> digits_le n = n mod 10 :: digits_le (n / 10).
Proof.
  intros Hn. rewrite digits_le_equation_1.
  destruct (decide (n < 10)); [lia | reflexivity].
Qed.

Lemma digits_le_ind (P : N -> Prop) :
  (forall n, n < 10 -> P n) ->
  (forall n, 10 <= n -> P (n / 10) -> P n) ->
  forall n, P n.
Proof.
  intros Hsmall Hstep n.
  induction n as [n IH] using (well_founded_induction N.lt_wf_0).
  destruct (N.lt_ge_cases n 10) as [Hn | Hn]; [now apply Hsmall |].
  apply Hstep; [exact Hn |]. apply IH. apply N.div_lt; lia.
Qed.

Lemma value_le_digits_le n : value_le (digits_le n) = n.
Proof.
  induction n as [n Hn | n Hn IH] using digits_le_ind.
  - rewrite digits_le_small by exact Hn. simpl. lia.
  - rewrite digits_le_step by exact Hn. simpl. fold (value_le (digits_le (n / 10))).
    rewrite IH. pose proof (N.div_mod n 10). lia.
Qed.

Lemma Forall_digits_le n : Forall (fun d => d < 10) (digits_le n).
Proof.
  induction n as [n Hn | n Hn IH] using digits_le_ind.
  - rewrite digits_le_small by exact Hn. repeat constructor. exact Hn.
  - rewrite digits_le_step by exact Hn. constructor; [| exact IH].
    apply N.mod_lt. lia.
Qed.

Lemma length_digits_le_pos n : (0 < length (digits_le n))%nat.
Proof.
  destruct (N.lt_ge_cases n 10) as [Hn | Hn].
  - rewrite digits_le_small by exact Hn. simpl. lia.
  - rewrite digits_le_step by exact Hn. simpl. lia.
Qed.

Lemma digits_le_upper n : n < 10 ^ N.of_nat (length (digits_le n)).
Proof.
  induction n as [n Hn | n Hn IH] using digits_le_ind.
  - rewrite digits_le_small by exact Hn. simpl. lia.
  - rewrite digits_le_step by exact Hn. cbn [length].
    rewrite Nat2N.inj_succ, N.pow_succ_r'.
    pose proof (N.div_mod n 10). pose proof (N.mod_lt n 10). lia.
Qed.

Lemma digits_le_lower n :
  0 < n -> 10 ^ N.of_nat (length (digits_le n) - 1) <= n.
Proof.
  induction n as [n Hn | n Hn IH] using digits_le_ind; intros Hpos.
  - rewrite digits_le_small by exact Hn. simpl. lia.
  - rewrite digits_le_step by exact Hn. cbn [length].
    pose proof (length_digits_le_pos (n / 10)) as Hlen.
    replace (S (length (digits_le (n / 10))) - 1)%nat
      with (S (length (digits_le (n / 10)) - 1))%nat by lia.
    rewrite Nat2N.inj_succ, N.pow_succ_r'.
    assert (0 < n / 10) by (apply N.div_str_pos; lia).
    pose proof (N.Div0.mul_div_le n 10). specialize (IH H). lia.
Qed.

Lemma value_le_skipn j n : value_le (skipn j (digits_le n)) = n / 10 ^ N.of_nat j.
Proof.
  revert n. induction j as [| j IH]; intros n.
  - rewrite skipn_O, value_le_digits_le. change (N.of_nat 0) with 0.
    rewrite N.pow_0_r, N.div_1_r. reflexivity.
  - rewrite Nat2N.inj_succ, N.pow_succ_r'.
    destruct (N.lt_ge_cases n 10) as [Hn | Hn].
    + rewrite digits_le_small by exact Hn.
      rewrite skipn_cons, skipn_nil. simpl. symmetry. apply N.div_small.
      assert (1 <= 10 ^ N.of_nat j) by (apply N.lt_pred_le, N.neq_0_lt_0, N.pow_nonzero; lia).
      lia.
    + rewrite digits_le_step by exact Hn.
      rewrite skipn_cons, IH, N.Div0.div_div. reflexivity.
Qed.

Lemma value_of_snoc ds d : value_of 10 (ds ++ [d]) = value_of 10 ds * 10 + d.
Proof. unfold value_of. rewrite fold_left_app. reflexivity. Qed.

Lemma value_of_rev l : value_of 10 (rev l) = value_le l.
Proof.
  induction l as [| d l IH]; [reflexivity |].
  cbn [rev]. rewrite value_of_snoc, IH. simpl. lia.
Qed.

Lemma digit_val_digit_char d : d < 10 -> digit_val 10 (digit_char d) = Some d.
Proof.
  intros Hd.
  assert (H : d = 0 \/ d = 1 \/ d = 2 \/ d = 3 \/ d = 4 \/ d = 5 \/ d = 6
              \/ d = 7 \/ d = 8 \/ d = 9) by lia.
  repeat destruct H as [H | H]; subst d; reflexivity.
Qed.

Lemma take_digits_app ds rest :
  Forall (fun d => d < 10) ds -> ends_digits rest ->
  take_digits 10 (string_of_digits ds +:+ rest) = (ds, rest).
Proof.
  intros Hds Hrest. induction Hds as [| d ds Hd Hds IH].
  - simpl. destruct rest as [| c r]; [reflexivity |].
    simpl in *. rewrite Hrest. reflexivity.
  - change (string_of_digits (d :: ds) +:+ rest)
      with (String (digit_char d) (string_of_digits ds +:+ rest)).
    cbn [take_digits]. rewrite digit_val_digit_char by exact Hd.
    rewrite IH. reflexivity.
Qed.


Lemma after_int_ends_digits rest : after_int rest -> ends_digits rest.
Proof. intros [-> | [r ->]]; reflexivity. Qed.

Lemma ten_cases d :
  d < 10 ->
  d = 0 \/ d = 1 \/ d = 2 \/ d = 3 \/ d = 4 \/ d = 5 \/ d = 6
  \/ d = 7 \/ d = 8 \/ d = 9.
Proof. lia. Qed.

Ltac each_digit H :=
  apply ten_cases in H; repeat destruct H as [H | H]; subst.

Lemma parseInt_first_nonzero c tail :
  is_space c = false -> c <> "-"%char -> c <> "+"%char -> c <> "0"%char ->
  parseInt (String c tail) = read10 (String c tail).
Proof.
  intros Hsp Hm Hp Hz. unfold parseInt, read10.
  cbn [skip_space]. rewrite Hsp.
  destruct c as [[] [] [] [] [] [] [] []]; try congruence; reflexivity.
Qed.

Lemma parseInt_first_zero c t :
  c <> "x"%char -> c <> "X"%char ->
  parseInt (String "0" (String c t)) = read10 (String "0" (String c t)).
Proof.
  intros Hx HX. unfold parseInt, read10.
  destruct c as [[] [] [] [] [] [] [] []]; try congruence; reflexivity.
Qed.

Lemma parseInt_digits ds rest :
  ds <> [] -> Forall (fun d => d < 10) ds -> after_int rest ->
  parseInt (string_of_digits ds +:+ rest)
  = of_Z (Z.of_N (value_of 10 ds)).
Proof.
  intros Hne Hds Hrest.
  assert (Hread : read10 (string_of_digits ds +:+ rest)
                  = of_Z (Z.of_N (value_of 10 ds))).
  { unfold read10.
    rewrite (take_digits_app ds rest Hds (after_int_ends_digits _ Hrest)).
    destruct ds; [congruence | reflexivity]. }
  rewrite <- Hread. clear Hread.
  destruct Hds as [| d1 ds' Hd1 Hds']; [congruence |].
  change (string_of_digits (d1 :: ds') +:+ rest)
    with (String (digit_char d1) (string_of_digits ds' +:+ rest)).
  destruct (N.eq_dec d1 0) as [-> | Hnz].
  - change (digit_char 0) with "0"%char.
    destruct Hds' as [| d2 ds'' Hd2 _].
    + destruct Hrest as [-> | [r ->]]; [reflexivity |].
      apply parseInt_first_zero; discriminate.
    + change (string_of_digits (d2 :: ds'') +:+ rest)
        with (String (digit_char d2) (string_of_digits ds'' +:+ rest)).
      apply parseInt_first_zero; each_digit Hd2; discriminate.
  - apply parseInt_first_nonzero; each_digit Hd1;
      solve [reflexivity | discriminate | congruence].
Qed.


Lemma rev_zeros z : rev (zeros z) = zeros z.
Proof.
  unfold zeros. induction z as [| z IH]; [reflexivity |].
  cbn [repeat rev]. rewrite IH. symmetry. apply repeat_cons.
Qed.

Lemma firstn_zeros m z : (m <= z)%nat -> firstn m (zeros z) = zeros m.
Proof.
  unfold zeros. revert z. induction m as [| m IH]; intros z Hz.
  - reflexivity.
  - destruct z as [| z]; [lia |]. cbn [repeat]. rewrite firstn_cons.
    rewrite IH by lia. reflexivity.
Qed.

Lemma drop_zeros_split l : exists z, l = zeros z ++ drop_zeros l.
Proof.
  induction l as [| d l [z IH]].
  - exists 0%nat. reflexivity.
  - destruct d as [| p].
    + exists (S z). cbn [drop_zeros zeros repeat app]. f_equal. exact IH.
    + exists 0%nat. reflexivity.
Qed.

Lemma strip_split ds : exists z, ds = strip_trailing_zeros ds ++ zeros z.
Proof.
  unfold strip_trailing_zeros.
  destruct (drop_zeros_split (rev ds)) as [z Hz]. exists z.
  rewrite <- (rev_involutive ds) at 1. rewrite Hz at 1.
  rewrite rev_app_distr, rev_zeros. reflexivity.
Qed.

Lemma length_zeros z : length (zeros z) = z.
Proof. apply repeat_length. Qed.

(** In positional notation with digits before the point, the text
    starts with the first [n] digits and goes on with nothing or with
    the point. *)
Lemma toString_pos_int_part c sc :
  let ds := digits c in
  let n := (Z.of_nat (length ds) - Z.of_nat sc)%Z in
  (0 < n <= 21)%Z ->
  exists rest, after_int rest /\
    toString_pos c sc = string_of_digits (firstn (Z.to_nat n) ds) +:+ rest.
Proof.
  cbv zeta. unfold toString_pos.
  generalize (digits c). intros ds.
  set (n := (Z.of_nat (length ds) - Z.of_nat sc)%Z). intros Hn.
  destruct (strip_split ds) as [z Hz].
  set (s := strip_trailing_zeros ds) in *.
  assert (Hlen : length ds = (length s + z)%nat).
  { rewrite Hz at 1. rewrite length_app, length_zeros. reflexivity. }
  destruct (Z.leb_spec (Z.of_nat (length s)) n) as [Hk | Hk].
  - replace (n <=? 21)%Z with true by (symmetry; apply Z.leb_le; lia).
    cbn [andb]. exists EmptyString. split; [left; reflexivity |].
    rewrite Hz at 1. rewrite firstn_app.
    rewrite firstn_all2 by lia. rewrite firstn_zeros by lia.
    replace (Z.to_nat n - length s)%nat
      with (Z.to_nat (n - Z.of_nat (length s))) by lia.
    unfold string_of_digits, String.app. 
    generalize (map digit_char (s ++ zeros (Z.to_nat (n - Z.of_nat (length s))))).
    intros l. induction l as [| a l IH]; [reflexivity |].
    cbn [string_of_list_ascii]. cbn. f_equal. exact IH.
  - cbn [andb].
    replace ((0 <? n) && (n <=? 21))%Z with true
      by (symmetry; apply andb_true_iff; split; [apply Z.ltb_lt | apply Z.leb_le]; lia).
    eexists. split; [right; eexists; reflexivity |].
    rewrite Hz at 1. rewrite firstn_app.
    replace (Z.to_nat n - length s)%nat with 0%nat by lia.
    rewrite firstn_O, app_nil_r. reflexivity.
Qed.


Lemma value_of_zeros z : value_of 10 (zeros z) = 0.
Proof.
  induction z as [| z IH]; [reflexivity |].
  unfold zeros in *. cbn [repeat]. rewrite repeat_cons.
  rewrite value_of_snoc, IH. reflexivity.
Qed.

Lemma value_of_digits c : value_of 10 (digits c) = c.
Proof. unfold digits. rewrite value_of_rev. apply value_le_digits_le. Qed.

Lemma strip_digits_nonempty c :
  0 < c -> (0 < length (strip_trailing_zeros (digits c)))%nat.
Proof.
  intros Hc. destruct (strip_split (digits c)) as [z Hz].
  destruct (strip_trailing_zeros (digits c)) as [| d s]; [| simpl; lia].
  pose proof (value_of_digits c) as Hv. rewrite Hz in Hv.
  cbn [app] in Hv. rewrite value_of_zeros in Hv. lia.
Qed.

Lemma toString_pos_fraction c sc :
  let n := (Z.of_nat (length (digits c)) - Z.of_nat sc)%Z in
  0 < c -> (-6 < n <= 0)%Z ->
  exists r, toString_pos c sc = String "0" (String "." r).
Proof.
  cbv zeta. intros Hc. pose proof (strip_digits_nonempty c Hc) as Hs.
  revert Hs. unfold toString_pos.
  generalize (digits c). intros ds Hs.
  set (n := (Z.of_nat (length ds) - Z.of_nat sc)%Z). intros Hn.
  set (s := strip_trailing_zeros ds) in *.
  destruct (Z.leb_spec (Z.of_nat (length s)) n) as [Hk | Hk]; [lia |].
  cbn [andb].
  replace ((0 <? n) && (n <=? 21))%Z with false
    by (symmetry; apply andb_false_iff; left; apply Z.ltb_ge; lia).
  replace ((-6 <? n) && (n <=? 0))%Z with true
    by (symmetry; apply andb_true_iff; split; [apply Z.ltb_lt | apply Z.leb_le]; lia).
  eexists. reflexivity.
Qed.

(** Reading back the text of a positive number printed in positional
    notation gives its integer part. *)
Lemma parseInt_toString_pos c sc :
  0 < c ->
  10 ^ N.of_nat sc <= c * 10 ^ 6 ->
  c < 10 ^ 21 * 10 ^ N.of_nat sc ->
  parseInt (toString_pos c sc) = of_Z (Z.of_N (c / 10 ^ N.of_nat sc)).
Proof.
  intros Hc Hlo Hhi.
  pose proof (digits_le_upper c) as Hup.
  pose proof (digits_le_lower c Hc) as Hlow.
  pose proof (length_digits_le_pos c) as Hlen.
  assert (Hdl : length (digits c) = length (digits_le c))
    by (unfold digits; apply length_rev).
  set (len := length (digits_le c)) in *.
  set (n := (Z.of_nat (length (digits c)) - Z.of_nat sc)%Z).
  assert (Hn : (-6 < n <= 21)%Z).
  { subst n. rewrite Hdl. split.
    - (* 10^sc <= c * 10^6 < 10^(len + 6) *)
      assert (10 ^ N.of_nat sc < 10 ^ N.of_nat (len + 6)).
      { rewrite Nat2N.inj_add, N.pow_add_r. change (N.of_nat 6) with 6. nia. }
      apply N.pow_lt_mono_r_iff in H; lia.
    - (* 10^(len - 1) <= c < 10^(21 + sc) *)
      assert (10 ^ N.of_nat (len - 1) < 10 ^ N.of_nat (21 + sc)).
      { rewrite (Nat2N.inj_add 21), N.pow_add_r. change (N.of_nat 21) with 21. lia. }
      apply N.pow_lt_mono_r_iff in H; lia. }
  destruct (Z.lt_ge_cases 0 n) as [Hpos | Hnpos].
  - destruct (toString_pos_int_part c sc) as [rest [Hrest ->]]; [fold n; lia |].
    fold n.
    assert (Hsc : (Z.to_nat n = len - sc)%nat) by (subst n; lia).
    rewrite parseInt_digits; [| | | exact Hrest].
    + unfold digits. rewrite firstn_rev, value_of_rev.
      replace (length (digits_le c) - Z.to_nat n)%nat with sc by (fold len; subst n; lia).
      rewrite value_le_skipn. reflexivity.
    + intros Hnil. apply (f_equal (@length N)) in Hnil.
      rewrite length_firstn in Hnil. simpl in Hnil. lia.
    + apply Forall_take. unfold digits. apply Forall_rev, Forall_digits_le.
  - destruct (toString_pos_fraction c sc Hc) as [r ->]; [fold n; lia |].
    rewrite parseInt_first_zero by discriminate.
    replace (c / 10 ^ N.of_nat sc) with 0; [reflexivity |].
    symmetry. apply N.div_small.
    assert (10 ^ N.of_nat len <= 10 ^ N.of_nat sc)
      by (apply N.pow_le_mono_r; subst n; lia).
    lia.
Qed.

End JSFacts.

Module JSText.
Import JS JSFacts.

Lemma pow10_N sc : pow10 sc = Z.of_N (10 ^ N.of_nat sc).
Proof. unfold pow10. rewrite N2Z.inj_pow, nat_N_Z. reflexivity. Qed.

Lemma positional_pos c sc : positional (Dec c sc) = true -> 0 < c.
Proof.
  unfold positional, dec_leb. cbn [coef scale]. intros H.
  apply andb_true_iff in H. destruct H as [H _]. apply Z.leb_le in H.
  assert (0 < pow10 sc) by (unfold pow10; apply Z.pow_pos_nonneg; lia).
  change (pow10 6) with 1000000 in H. lia.
Qed.

(** Printing a number of the positional range and reading it back with
    [parseInt] gives its integer part. *)
Lemma parseInt_toString t :
  positional t = true -> parseInt (toString (Num t)) = of_Z (trunc t).
Proof.
  destruct t as [c sc]. intros Hpos.
  pose proof (positional_pos c sc Hpos) as Hc.
  unfold positional, dec_leb, dec_ltb in Hpos. cbn [coef scale] in Hpos.
  apply andb_true_iff in Hpos. destruct Hpos as [Hlo Hhi].
  apply Z.leb_le in Hlo. apply Z.ltb_lt in Hhi.
  change (pow10 6) with 1000000 in Hlo.
  change (pow10 0) with 1 in Hhi.
  change (10 ^ 21) with 1000000000000000000000 in Hhi.
  unfold toString.
  replace (c =? 0) with false by (symmetry; apply Z.eqb_neq; lia).
  replace (c <? 0) with false by (symmetry; apply Z.ltb_ge; lia).
  unfold trunc. cbn [coef scale].
  rewrite pow10_N in *.
  assert (HP : (0 < 10 ^ N.of_nat sc)%N)
    by (apply N.neq_0_lt_0, N.pow_nonzero; lia).
  remember (10 ^ N.of_nat sc)%N as P eqn:HeqP.
  rewrite (parseInt_toString_pos (Z.to_N c) sc); rewrite <- ?HeqP.
  - rewrite Z.quot_div_nonneg by lia.
    rewrite N2Z.inj_div, Z2N.id by lia. reflexivity.
  - lia.
  - change (10 ^ 6)%N with 1000000%N. lia.
  - change (10 ^ 21)%N with 1000000000000000000000%N. lia.
Qed.

Lemma toString_nonempty t :
  positional t = true -> toString (Num t) <> ""%string.
Proof.
  intros Hpos Hnil. pose proof (parseInt_toString t Hpos) as H.
  rewrite Hnil in H. discriminate.
Qed.




End JSText.

(** The arithmetic on decimals is that of their values. *)
Module JSArith.
Import JS.

Lemma pow10_pos n : 0 < pow10 n.
Proof. unfold pow10. apply Z.pow_pos_nonneg; lia. Qed.

Lemma pow10_add a b : pow10 (a + b) = pow10 a * pow10 b.
Proof. unfold pow10. rewrite Nat2Z.inj_add, Z.pow_add_r by lia. reflexivity. Qed.

Lemma units_scale m a :
  (scale a <= m)%nat -> units m a * pow10 (scale a) = coef a * pow10 m.
Proof.
  intros H. unfold units. rewrite <- Z.mul_assoc, <- pow10_add.
  replace (m - scale a + scale a)%nat with m by lia. reflexivity.
Qed.

(** Addition is exact. *)
Lemma units_add m a b :
  (scale a <= m)%nat -> (scale b <= m)%nat ->
  units m (dec_add a b) = units m a + units m b.
Proof.
  intros Ha Hb. unfold units, dec_add. cbn [coef scale].
  set (M := Nat.max (scale a) (scale b)).
  rewrite Z.mul_add_distr_r, <- !Z.mul_assoc, <- !pow10_add.
  replace (M - scale a + (m - M))%nat with (m - scale a)%nat by lia.
  replace (M - scale b + (m - M))%nat with (m - scale b)%nat by lia.
  reflexivity.
Qed.

Lemma units_opp m a : units m (dec_opp a) = - units m a.
Proof. unfold units, dec_opp. cbn [coef scale]. apply Z.mul_opp_l. Qed.

(** Scaling both sides by the same power of ten. *)
Lemma units_cross m a b :
  (scale a <= m)%nat -> (scale b <= m)%nat ->
  units m a * (pow10 (scale a) * pow10 (scale b))
  = coef a * pow10 (scale b) * pow10 m /\
  units m b * (pow10 (scale a) * pow10 (scale b))
  = coef b * pow10 (scale a) * pow10 m.
Proof.
  intros Ha Hb.
  pose proof (units_scale m a Ha) as Ea. pose proof (units_scale m b Hb) as Eb.
  split.
  - replace (units m a * (pow10 (scale a) * pow10 (scale b)))
      with (units m a * pow10 (scale a) * pow10 (scale b)) by ring.
    rewrite Ea. ring.
  - replace (units m b * (pow10 (scale a) * pow10 (scale b)))
      with (units m b * pow10 (scale b) * pow10 (scale a)) by ring.
    rewrite Eb. ring.
Qed.

(** The comparisons are those of the values. *)
Lemma units_leb m a b :
  (scale a <= m)%nat -> (scale b <= m)%nat ->
  dec_leb a b = (units m a <=? units m b).
Proof.
  intros Ha Hb. unfold dec_leb.
  destruct (units_cross m a b Ha Hb) as [Ea Eb].
  assert (Pab : 0 < pow10 (scale a) * pow10 (scale b))
    by (apply Z.mul_pos_pos; apply pow10_pos).
  pose proof (pow10_pos m) as Pm.
  apply eq_true_iff_eq. rewrite !Z.leb_le.
  rewrite (Z.mul_le_mono_pos_r _ _ _ Pm), <- Ea, <- Eb.
  symmetry. apply Z.mul_le_mono_pos_r. exact Pab.
Qed.

Lemma units_ltb m a b :
  (scale a <= m)%nat -> (scale b <= m)%nat ->
  dec_ltb a b = (units m a <? units m b).
Proof.
  intros Ha Hb. unfold dec_ltb.
  destruct (units_cross m a b Ha Hb) as [Ea Eb].
  assert (Pab : 0 < pow10 (scale a) * pow10 (scale b))
    by (apply Z.mul_pos_pos; apply pow10_pos).
  pose proof (pow10_pos m) as Pm.
  apply eq_true_iff_eq. rewrite !Z.ltb_lt.
  rewrite (Z.mul_lt_mono_pos_r _ _ _ Pm), <- Ea, <- Eb.
  symmetry. apply Z.mul_lt_mono_pos_r. exact Pab.
Qed.

End JSArith.

Example add_fraction :
  JS.add (JS.Num (JS.Dec 1255 1)) (JS.of_Z 30) = JS.Num (JS.Dec 1555 1).
Proof. reflexivity. Qed.

Example min_clamps :
  JS.min (JS.add (JS.Num (JS.Dec 26801 1)) (JS.of_Z 30)) (JS.of_Z 2700)
  = JS.of_Z 2700.
Proof. reflexivity. Qed.

Example max_clamps :
  JS.max (JS.sub (JS.of_Z 10) (JS.of_Z 15)) (JS.of_Z 0) = JS.of_Z 0.
Proof. reflexivity. Qed.

Example toString_fraction :
  JS.toString (JS.Num (JS.Dec 1255 1)) = "125.5"%string.
Proof. reflexivity. Qed.

Example toString_trailing_zero :
  JS.toString (JS.Num (JS.Dec 1250 1)) = "125"%string.
Proof. reflexivity. Qed.

Example toString_smallest_positional :
  JS.toString (JS.Num (JS.Dec 1 6)) = "0.000001"%string.
Proof. reflexivity. Qed.

Example toString_small_exponent :
  JS.toString (JS.Num (JS.Dec 5 7)) = "5e-7"%string.
Proof. reflexivity. Qed.

Example toString_small_exponent_digits :
  JS.toString (JS.Num (JS.Dec 123 10)) = "1.23e-8"%string.
Proof. reflexivity. Qed.

Example toString_large_exponent :
  JS.toString (JS.Num (JS.Dec (10 ^ 21) 0)) = "1e+21"%string.
Proof. reflexivity. Qed.

Example parseInt_stops_at_point : JS.parseInt "125.5" = JS.of_Z 125.
Proof. reflexivity. Qed.

Example parseInt_stops_at_exponent : JS.parseInt "5e-7" = JS.of_Z 5.
Proof. reflexivity. Qed.

Example parseInt_no_digit : JS.parseInt "abc" = JS.NaN.
Proof. reflexivity. Qed.

Example parseInt_hex : JS.parseInt "  -0x1f" = JS.of_Z (-31).
Proof. reflexivity. Qed.

Example parseFloat_fraction : JS.parseFloat "0.75" = JS.Num (JS.Dec 75 2).
Proof. reflexivity. Qed.

Example parseFloat_exponent : JS.parseFloat "1.5e3x" = JS.Num (JS.Dec 1500 0).
Proof. reflexivity. Qed.

Example parseFloat_no_digit : JS.parseFloat "fast" = JS.NaN.
Proof. reflexivity. Qed.

(** ** The player *)

Module PlayerFacts.
Import Player JS.

(** Rewrite the field reads of a state built by the update functions. *)
Ltac simpl_state_step :=
  unfold set_currentEpisode, set_isPlaying, set_currentTime, set_duration,
    set_playbackRate, set_analytics, set_audio, set_localStorage, set_writes,
    set_dom, set_pending, setItem, audio_play, audio_pause,
    audio_set_src, audio_set_currentTime, audio_set_duration,
    audio_set_paused, audio_set_playbackRate, audio_advance,
    audio_set_queued in *;
  cbn [currentEpisode isPlaying currentTime duration playbackRate episodes
       analytics audio localStorage writes dom pending
       src a_currentTime a_duration paused a_playbackRate queued] in *.

Ltac simpl_state := repeat progress simpl_state_step.


Lemma positional_gt t : positional t = true -> gt (Num t) (of_Z 0) = true.
Proof.
  destruct t as [c sc]. intros Hpos.
  pose proof (JSText.positional_pos c sc Hpos) as Hc.
  unfold gt, of_Z, dec_ltb. cbn [coef scale]. apply Z.ltb_lt.
  change (pow10 0) with 1. lia.
Qed.

Lemma saveProgress_positive st e :
  currentEpisode st = Some e -> gt (currentTime st) (of_Z 0) = true ->
  saveProgress st
  = setItem (progress_key (ep_id e)) (Text (toString (currentTime st))) st.
Proof. intros He Hgt. unfold saveProgress. rewrite He, Hgt. reflexivity. Qed.

Lemma saveProgress_not_positive st :
  gt (currentTime st) (of_Z 0) = false -> saveProgress st = st.
Proof.
  intros Hgt. unfold saveProgress. rewrite Hgt.
  destruct (currentEpisode st); reflexivity.
Qed.

Lemma getEpisodeProgress_store episodeId st st' :
  localStorage st' = localStorage st ->
  getEpisodeProgress episodeId st' = getEpisodeProgress episodeId st.
Proof. intros H. unfold getEpisodeProgress. rewrite H. reflexivity. Qed.

Lemma getEpisodeProgress_stored episodeId st t :
  positional t = true ->
  localStorage st !! progress_key episodeId = Some (Text (toString (Num t))) ->
  getEpisodeProgress episodeId st = of_Z (trunc t).
Proof.
  intros Hpos Hlook. unfold getEpisodeProgress. rewrite Hlook.
  pose proof (JSText.toString_nonempty t Hpos) as Hne.
  pose proof (JSText.parseInt_toString t Hpos) as Hparse.
  destruct (toString (Num t)) as [| c s]; [congruence | exact Hparse].
Qed.

End PlayerFacts.

Module TickFacts.
Import Player JS PlayerFacts.

Lemma handle_tick_positive st e p :
  currentEpisode st = Some e -> gt p (of_Z 0) = true ->
  handle_tick p st
  = setItem (progress_key (ep_id e)) (Text (toString p))
      (set_currentTime p (step (Clock p) st)).
Proof.
  intros He Hgt. unfold handle_tick, on_timeupdate, updateProgress.
  rewrite (saveProgress_positive _ e); [reflexivity | exact He | exact Hgt].
Qed.

Lemma handle_tick_episode st p :
  currentEpisode (handle_tick p st) = currentEpisode st.
Proof.
  unfold handle_tick, on_timeupdate, updateProgress, saveProgress, step.
  simpl_state.
  destruct (currentEpisode st); [| reflexivity].
  destruct (gt _ _); reflexivity.
Qed.


Lemma handle_ticks_cons tick ticks st :
  handle_ticks (tick :: ticks) st = handle_ticks ticks (handle_tick (snd tick) st).
Proof. reflexivity. Qed.



Lemma handle_tick_new_writes st e p :
  currentEpisode st = Some e -> gt p (of_Z 0) = true ->
  new_writes st (handle_tick p st)
  = [(progress_key (ep_id e), Text (toString p))].
Proof.
  intros He Hgt. rewrite (handle_tick_positive st e p He Hgt).
  unfold new_writes. simpl_state. apply drop_app_length.
Qed.

Lemma handle_ticks_writes st e ticks :
  currentEpisode st = Some e -> Forall positive_tick ticks ->
  writes (handle_ticks ticks st) = writes st ++ map (tick_write e) ticks.
Proof.
  intros He Hpos. revert st He.
  induction Hpos as [| tick ticks Htick _ IH]; intros st He.
  - cbn. rewrite app_nil_r. reflexivity.
  - rewrite handle_ticks_cons.
    rewrite IH by (rewrite handle_tick_episode; exact He).
    rewrite (handle_tick_positive st e _ He Htick). simpl_state.
    rewrite <- app_assoc. reflexivity.
Qed.

Lemma write_times_positive st e ticks :
  currentEpisode st = Some e -> Forall positive_tick ticks ->
  write_times ticks st = map fst ticks.
Proof.
  intros He Hpos. revert st He.
  induction Hpos as [| [ts p] ticks Htick _ IH]; intros st He; [reflexivity |].
  cbn [write_times map fst].
  rewrite (handle_tick_new_writes st e p He Htick).
  rewrite IH by (rewrite handle_tick_episode; exact He). reflexivity.
Qed.






Lemma two_ticks_ascending gap :
  0 <= gap -> ascending (map fst (Scenario.two_ticks gap)).
Proof.
  intros Hgap [| [| i]] [| [| [| j]]] a b Hij Ha Hb; cbn in *;
    try lia; try discriminate; simplify_eq; lia.
Qed.

End TickFacts.

Module CommandFacts.
Import Player JS PlayerFacts.

(** What [playEpisode] does for an episode of the catalog. *)
Lemma playEpisode_found st e :
  find_episode (ep_id e) st = Some e ->
  let progress := getEpisodeProgress (ep_id e) st in
  playEpisode (ep_id e) st
  = {| currentEpisode := Some e; isPlaying := isPlaying st;
       currentTime := currentTime st; duration := duration st;
       playbackRate := playbackRate st; episodes := episodes st;
       analytics := analytics st;
       audio := {| src := ep_audioUrl e;
                   a_currentTime :=
                     if gt progress (of_Z 0) then progress else of_Z 0;
                   a_duration := NaN; paused := false;
                   a_playbackRate := a_playbackRate (audio st);
                   queued := 0 |};
       localStorage := localStorage st; writes := writes st;
       dom := dom st; pending := pending st ++ [PlayEpisodeThen e] |}.
Proof.
  intros Hfind progress. unfold playEpisode. rewrite Hfind.
  rewrite (getEpisodeProgress_store (ep_id e) st) by reflexivity.
  fold progress. destruct (gt progress (of_Z 0)); reflexivity.
Qed.

Lemma playEpisode_fields st e :
  find_episode (ep_id e) st = Some e ->
  let st1 := playEpisode (ep_id e) st in
  let progress := getEpisodeProgress (ep_id e) st in
  currentEpisode st1 = Some e /\
  pending st1 = pending st ++ [PlayEpisodeThen e] /\
  isPlaying st1 = isPlaying st /\
  a_currentTime (audio st1)
  = (if gt progress (of_Z 0) then progress else of_Z 0) /\
  a_duration (audio st1) = NaN /\
  paused (audio st1) = false /\
  src (audio st1) = ep_audioUrl e /\
  episodes st1 = episodes st /\
  localStorage st1 = localStorage st.
Proof.
  intros Hfind st1 progress. subst st1.
  rewrite (playEpisode_found st e Hfind). repeat split; reflexivity.
Qed.

(** [updateMiniPlayer] only touches the page. *)
Lemma updateMiniPlayer_dom st :
  updateMiniPlayer st
  = set_dom
      match currentEpisode st with
      | Some e =>
          {| miniTitle := ep_title e; miniArtwork := ep_artwork e;
             miniPlayBtn := isPlaying st;
             miniPlayerShown := miniPlayerShown (dom st);
             notifications := notifications (dom st) |}
      | None => dom st
      end st.
Proof.
  unfold updateMiniPlayer. destruct st as [cur ? ? ? ? ? ? ? ? ? ? ?].
  destruct cur; reflexivity.
Qed.

Lemma togglePlayPause_store st :
  localStorage (togglePlayPause st) = localStorage st /\
  writes (togglePlayPause st) = writes st.
Proof.
  unfold togglePlayPause.
  destruct (currentEpisode st); [| split; reflexivity].
  rewrite updateMiniPlayer_dom.
  destruct (isPlaying st); split; reflexivity.
Qed.

Lemma togglePlayPause_pauses st e :
  currentEpisode st = Some e -> isPlaying st = true ->
  isPlaying (togglePlayPause st) = false /\
  paused (audio (togglePlayPause st)) = true.
Proof.
  intros He Hplaying. unfold togglePlayPause.
  rewrite He, Hplaying, updateMiniPlayer_dom. split; reflexivity.
Qed.

Lemma settle_middle st l1 r l2 ok :
  pending st = l1 ++ r :: l2 ->
  settle (length l1) ok st = react r ok (set_pending (l1 ++ l2) st).
Proof.
  intros Hp. unfold settle. rewrite Hp.
  rewrite list_lookup_middle by reflexivity.
  rewrite delete_middle. reflexivity.
Qed.

(** A rejected [play()] only shows a notification, if anything. *)
Lemma react_rejected r st :
  let st' := react r false st in
  engine_state st' = engine_state st /\ audio st' = audio st /\
  analytics st' = analytics st /\ localStorage st' = localStorage st /\
  writes st' = writes st /\ pending st' = pending st.
Proof. destruct r; repeat split; reflexivity. Qed.

(** A fulfilled [play()] of [playEpisode] sets the playing flag and
    records a play of the episode it was called for; the current
    episode, the position, the duration, the rate and the audio element
    are left as they are. *)
Lemma react_fulfilled e st :
  let st' := react (PlayEpisodeThen e) true st in
  currentEpisode st' = currentEpisode st /\ isPlaying st' = true /\
  currentTime st' = currentTime st /\ duration st' = duration st /\
  playbackRate st' = playbackRate st /\ audio st' = audio st /\
  analytics st'
  = {| totalPlays := totalPlays (analytics st) + 1;
       totalTime := add (totalTime (analytics st)) (ep_duration e) |}.
Proof.
  cbn zeta. unfold react. rewrite updateMiniPlayer_dom.
  repeat split; reflexivity.
Qed.

End CommandFacts.

Module PositionFacts.
Import Player JS PlayerFacts.

(** [parseInt] gives a whole number or [NaN]. *)
Lemma parseInt_whole s : parseInt s = NaN \/ exists z, parseInt s = of_Z z.
Proof.
  unfold parseInt.
  destruct (read_sign (skip_space s)) as [neg s1].
  destruct (match s1 with
            | String "0" (String "x" r) | String "0" (String "X" r) => (16%N, r)
            | _ => (10%N, s1)
            end) as [radix s2].
  destruct (take_digits radix s2) as [[| d ds] rest];
    [left; reflexivity | right; eexists; reflexivity].
Qed.

Lemma getEpisodeProgress_whole episodeId st :
  getEpisodeProgress episodeId st = NaN \/
  exists z, getEpisodeProgress episodeId st = of_Z z.
Proof.
  unfold getEpisodeProgress.
  destruct (localStorage st !! progress_key episodeId) as [[[| c s] | d] |].
  - right. exists 0. reflexivity.
  - apply parseInt_whole.
  - left. reflexivity.
  - right. exists 0. reflexivity.
Qed.

Lemma gt_of_Z z : gt (of_Z z) (of_Z 0) = (0 <? z).
Proof.
  unfold gt, of_Z, dec_ltb. cbn [coef scale]. change (pow10 0) with 1.
  rewrite !Z.mul_1_r. reflexivity.
Qed.

Lemma trunc_nonneg t : 0 <= coef t -> 0 <= trunc t.
Proof.
  intros H. unfold trunc. apply Z.quot_pos; [exact H |].
  pose proof (JSArith.pow10_pos (scale t)). lia.
Qed.

End PositionFacts.

(** ** Superseded loads *)

(** C1 (amended): when [playEpisode(A)] is followed by [playEpisode(B)]
    before the first [play()] promise settles, both episodes being in
    the catalog, the current episode is [B], and it is still [B] after
    the promise of [A] settles late; that settling leaves the audio
    element, the position, the duration and the rate as they were.  A
    late rejection changes nothing else either; a late fulfilment sets
    [isPlaying] and counts one more play. *)
Theorem superseded_load_keeps_current (st : Player.State)
    (A B : Player.Episode) (ok : bool) :
  Player.find_episode (Player.ep_id A) st = Some A ->
  Player.find_episode (Player.ep_id B) st = Some B ->
  let st2 := Player.playEpisode (Player.ep_id B)
               (Player.playEpisode (Player.ep_id A) st) in
  let st3 := Player.settle (length (Player.pending st)) ok st2 in
  Player.currentEpisode st2 = Some B /\
  Player.currentEpisode st3 = Some B /\
  Player.audio st3 = Player.audio st2 /\
  Player.currentTime st3 = Player.currentTime st2 /\
  Player.duration st3 = Player.duration st2 /\
  Player.playbackRate st3 = Player.playbackRate st2 /\
  (ok = false ->
   Player.engine_state st3 = Player.engine_state st2 /\
   Player.analytics st3 = Player.analytics st2 /\
   Player.localStorage st3 = Player.localStorage st2) /\
  (ok = true ->
   Player.isPlaying st3 = true /\
   Player.totalPlays (Player.analytics st3)
   = (Player.totalPlays (Player.analytics st2) + 1)%N).
Proof.
  intros HA HB st2 st3.
  destruct (CommandFacts.playEpisode_fields st A HA)
    as (_ & HpendA & _ & _ & _ & _ & _ & HepsA & _).
  assert (HB1 : Player.find_episode (Player.ep_id B)
                  (Player.playEpisode (Player.ep_id A) st) = Some B).
  { unfold Player.find_episode in *. rewrite HepsA. exact HB. }
  destruct (CommandFacts.playEpisode_fields _ B HB1)
    as (Hcur & HpendB & _).
  fold st2 in Hcur, HpendB.
  assert (Hpend : Player.pending st2
                  = Player.pending st
                    ++ Player.PlayEpisodeThen A :: [Player.PlayEpisodeThen B]).
  { rewrite HpendB, HpendA, <- app_assoc. reflexivity. }
  assert (Hst3 : st3 = Player.react (Player.PlayEpisodeThen A) ok
                         (Player.set_pending
                            (Player.pending st ++ [Player.PlayEpisodeThen B])
                            st2)).
  { subst st3. apply CommandFacts.settle_middle. exact Hpend. }
  set (s2 := Player.set_pending
               (Player.pending st ++ [Player.PlayEpisodeThen B]) st2) in *.
  split; [exact Hcur |]. rewrite Hst3. clear Hst3 st3.
  destruct ok.
  - destruct (CommandFacts.react_fulfilled A s2)
      as (H1 & H2 & H3 & H4 & H5 & H6 & H7).
    split; [rewrite H1; exact Hcur |].
    split; [exact H6 |]. split; [exact H3 |]. split; [exact H4 |].
    split; [exact H5 |]. split; [discriminate |].
    intros _. split; [exact H2 |]. rewrite H7. reflexivity.
  - (* the rejection handler only shows a notification *)
    split; [exact Hcur |].
    do 4 (split; [reflexivity |]).
    split; [| discriminate].
    intros _. repeat split; reflexivity.
Qed.

(** Episode 2 asked for while episode 1 loads: 2 stays current when the
    promise of 1 is fulfilled late. *)
Lemma superseded_load_witness :
  Player.currentEpisode Scenario.loading_2_after_1 = Some Player.sample_2 /\
  Player.currentEpisode (Player.settle 0 true Scenario.loading_2_after_1)
  = Some Player.sample_2.
Proof.
  destruct (superseded_load_keeps_current (Player.init ∅)
              Player.sample_1 Player.sample_2 true eq_refl eq_refl)
    as (H1 & H2 & _).
  split; [exact H1 | exact H2].
Defined.

(** C1 as stated fails: the late fulfilment of the first promise sets
    [isPlaying] and records a play of episode 1 while episode 2 is the
    current one. *)
Lemma stale_load_changes_state :
  Player.isPlaying Scenario.loading_2_after_1 = false /\
  Player.isPlaying (Player.settle 0 true Scenario.loading_2_after_1) = true /\
  Player.analytics (Player.settle 0 true Scenario.loading_2_after_1)
  = {| Player.totalPlays := 1; Player.totalTime := JS.of_Z 2700 |} /\
  ~ Stated.stale_load_discarded.
Proof.
  split; [reflexivity |]. split; [reflexivity |]. split; [reflexivity |].
  intros H.
  destruct (H (Player.init ∅) Player.sample_1 Player.sample_2 true
              eq_refl eq_refl) as [_ Hsame].
  vm_compute in Hsame. discriminate.
Qed.

(** ** Skips *)

(** C2 (the player against the claim): at position 0 of an episode
    whose duration, 2700 s, is known, [skipForward] leaves the position
    at 0, where the claim has [min(0 + 30, 2700) = 30]; the guard of
    [skipForward] takes position 0 for no position.  So the claim, as
    stated, does not hold of the player. *)
Theorem skipForward_at_zero_stays :
  Player.a_currentTime (Player.audio Scenario.at_start_2700) = JS.of_Z 0 /\
  Player.duration Scenario.at_start_2700 = JS.of_Z 2700 /\
  Player.a_currentTime
    (Player.audio (Player.skipForward Scenario.at_start_2700)) = JS.of_Z 0 /\
  JS.min (JS.add (JS.of_Z 0) (JS.of_Z 30)) (JS.of_Z 2700) = JS.of_Z 30 /\
  ~ Stated.skip_clamps.
Proof.
  do 4 (split; [reflexivity |]).
  intros H.
  destruct (H Scenario.at_start_2700 (JS.Dec 0 0) (JS.Dec 2700 0)
              eq_refl eq_refl eq_refl eq_refl) as [Hfwd _].
  vm_compute in Hfwd. discriminate.
Qed.

(** Away from position 0 the skips are the clamped sums. *)
Lemma skip_clamps_nonzero (st : Player.State) :
  JS.truthy (Player.a_currentTime (Player.audio st)) = true ->
  Player.a_currentTime (Player.audio (Player.skipForward st))
  = JS.min (JS.add (Player.a_currentTime (Player.audio st)) (JS.of_Z 30))
      (Player.duration st) /\
  Player.a_currentTime (Player.audio (Player.skipBackward st))
  = JS.max (JS.sub (Player.a_currentTime (Player.audio st)) (JS.of_Z 15))
      (JS.of_Z 0).
Proof.
  intros Ht. unfold Player.skipForward, Player.skipBackward. rewrite Ht.
  split; reflexivity.
Qed.

Example skipBackward_from_10 :
  Player.a_currentTime
    (Player.audio
       (Player.skipBackward
          (Player.step (Player.Clock (JS.of_Z 10)) Scenario.at_start_2700)))
  = JS.of_Z 0.
Proof. reflexivity. Qed.

(** ** Checkpoints *)

Module PauseFacts.
Import Player JS PlayerFacts.

(** What [togglePlayPause] leaves of a player that plays. *)
Lemma togglePlayPause_playing st e :
  currentEpisode st = Some e -> isPlaying st = true ->
  let st1 := togglePlayPause st in
  currentEpisode st1 = Some e /\ isPlaying st1 = false /\
  paused (audio st1) = true /\
  a_currentTime (audio st1) = a_currentTime (audio st) /\
  queued (audio st1)
  = (if paused (audio st) then queued (audio st) else S (queued (audio st))) /\
  writes st1 = writes st /\ localStorage st1 = localStorage st.
Proof.
  intros He Hplaying. cbn zeta. unfold togglePlayPause.
  rewrite He, Hplaying, CommandFacts.updateMiniPlayer_dom.
  split; [exact He |]. repeat split; reflexivity.
Qed.

(** The run of a queued [timeupdate]: the listener reads the position
    of the element and saves it when it is above 0. *)
Lemma deliver_queued st n :
  queued (audio st) = S n ->
  deliver st = on_timeupdate (set_audio (audio_set_queued n (audio st)) st).
Proof. intros Hq. unfold deliver. rewrite Hq. reflexivity. Qed.

Lemma deliver_writes st n e :
  queued (audio st) = S n -> currentEpisode st = Some e ->
  writes (deliver st)
  = writes st
    ++ (if gt (a_currentTime (audio st)) (of_Z 0)
        then [(progress_key (ep_id e), Text (toString (a_currentTime (audio st))))]
        else []) /\
  (gt (a_currentTime (audio st)) (of_Z 0) = true ->
   localStorage (deliver st) !! progress_key (ep_id e)
   = Some (Text (toString (a_currentTime (audio st))))) /\
  (gt (a_currentTime (audio st)) (of_Z 0) = false ->
   localStorage (deliver st) = localStorage st).
Proof.
  intros Hq He. rewrite (deliver_queued st n Hq).
  unfold on_timeupdate, updateProgress.
  set (s := set_currentTime _ _).
  assert (Hs : currentEpisode s = Some e) by exact He.
  change (a_currentTime (audio st)) with (currentTime s).
  destruct (gt (currentTime s) (of_Z 0)) eqn:Hgt.
  - rewrite (saveProgress_positive s e Hs Hgt).
    split; [reflexivity |]. split; [| discriminate].
    intros _. apply lookup_insert_eq.
  - rewrite (saveProgress_not_positive s Hgt).
    split; [symmetry; apply app_nil_r |]. split; [discriminate | reflexivity].
Qed.

End PauseFacts.

(** C3 (amended): a pause saves the position when it is above 0, and
    it is the element that brings the write about.  While the element
    plays the current episode, [togglePlayPause] pauses it and clears
    [isPlaying] without any [setItem] call of its own; [audio.pause()]
    makes the element queue one [timeupdate]; when that task runs, its
    listener makes one write, of the position the element was paused at,
    under the key of the episode, if that position is above 0, and no
    write at all if it is 0. *)
Theorem pause_checkpoints_position (st : Player.State) (e : Player.Episode) :
  Player.currentEpisode st = Some e -> Player.isPlaying st = true ->
  Player.paused (Player.audio st) = false ->
  let p := Player.a_currentTime (Player.audio st) in
  let st1 := Player.togglePlayPause st in
  Player.isPlaying st1 = false /\
  Player.paused (Player.audio st1) = true /\
  Player.new_writes st st1 = [] /\
  Player.queued (Player.audio st1) = S (Player.queued (Player.audio st)) /\
  (JS.gt p (JS.of_Z 0) = true ->
   Player.new_writes st (Player.deliver st1)
   = [(Player.progress_key (Player.ep_id e), Player.Text (JS.toString p))] /\
   Player.localStorage (Player.deliver st1)
     !! Player.progress_key (Player.ep_id e)
   = Some (Player.Text (JS.toString p))) /\
  (JS.gt p (JS.of_Z 0) = false ->
   Player.new_writes st (Player.deliver st1) = [] /\
   Player.localStorage (Player.deliver st1) = Player.localStorage st).
Proof.
  intros He Hplaying Hpaused p st1.
  destruct (PauseFacts.togglePlayPause_playing st e He Hplaying)
    as (He1 & Hplay1 & Hpaused1 & Hp1 & Hq1 & Hw1 & Hs1).
  fold st1 in He1, Hplay1, Hpaused1, Hp1, Hq1, Hw1, Hs1.
  rewrite Hpaused in Hq1.
  destruct (PauseFacts.deliver_writes st1 _ e Hq1 He1) as (Hw & Hyes & Hno).
  rewrite Hp1 in Hw, Hyes, Hno. fold p in Hw, Hyes, Hno.
  split; [exact Hplay1 |]. split; [exact Hpaused1 |].
  split; [unfold Player.new_writes; rewrite Hw1; apply drop_all |].
  split; [exact Hq1 |].
  unfold Player.new_writes. rewrite Hw, Hw1. split; intros Hgt; rewrite Hgt.
  - split; [apply drop_app_length | exact (Hyes Hgt)].
  - rewrite app_nil_r. split; [apply drop_all |].
    rewrite (Hno Hgt). exact Hs1.
Qed.

(** Pausing at 125 s, the last tick having come at 124.8 s: the
    position 125 is saved when the queued task runs. *)
Lemma pause_checkpoints_position_witness :
  Player.new_writes Scenario.playing_at_125
    (Player.togglePlayPause Scenario.playing_at_125) = [] /\
  Player.new_writes Scenario.playing_at_125
    (Player.deliver (Player.togglePlayPause Scenario.playing_at_125))
  = [("episode_progress_1"%string, Player.Text "125")].
Proof.
  destruct (pause_checkpoints_position Scenario.playing_at_125 Player.sample_1
              eq_refl eq_refl eq_refl) as (_ & _ & Hnone & _ & Hyes & _).
  split; [exact Hnone | exact (proj1 (Hyes eq_refl))].
Defined.

(** C3 as stated fails at position 0: episode 1 plays and the element
    is still at 0 s; the pause and the task it queues make no write. *)
Lemma pause_at_zero_writes_nothing :
  Player.isPlaying Scenario.at_start_2700 = true /\
  Player.paused (Player.audio Scenario.at_start_2700) = false /\
  Player.a_currentTime (Player.audio Scenario.at_start_2700) = JS.of_Z 0 /\
  Player.new_writes Scenario.at_start_2700
    (Player.deliver (Player.togglePlayPause Scenario.at_start_2700)) = [] /\
  ~ Stated.pause_forces_checkpoint.
Proof.
  do 4 (split; [reflexivity |]).
  intros H.
  specialize (H Scenario.at_start_2700 Player.sample_1 eq_refl eq_refl eq_refl).
  vm_compute in H. exact H.
Qed.

(** C4 (amended): writes are not throttled.  With an episode current,
    every progress tick at a position above 0 makes one [setItem] call
    with that position, whatever the times of the ticks: the calls made
    are those of the ticks, one for one and in order, and every tick's
    time is a write time. *)
Theorem every_tick_written (st : Player.State) (e : Player.Episode)
    (ticks : list (Z * JS.number)) :
  Player.currentEpisode st = Some e ->
  Forall Player.positive_tick ticks ->
  Player.new_writes st (Player.handle_ticks ticks st)
  = map (Player.tick_write e) ticks /\
  Player.write_times ticks st = map fst ticks.
Proof.
  intros He Hpos. split.
  - unfold Player.new_writes.
    rewrite (TickFacts.handle_ticks_writes st e ticks He Hpos).
    apply drop_app_length.
  - apply (TickFacts.write_times_positive st e ticks He Hpos).
Qed.

(** Four ticks within a second give four writes. *)
Lemma every_tick_written_witness :
  Player.new_writes Scenario.loading_1
    (Player.handle_ticks Scenario.quarter_second_ticks Scenario.loading_1)
  = [("episode_progress_1"%string, Player.Text "0.25");
     ("episode_progress_1"%string, Player.Text "0.5");
     ("episode_progress_1"%string, Player.Text "0.75");
     ("episode_progress_1"%string, Player.Text "1")] /\
  Player.write_times Scenario.quarter_second_ticks Scenario.loading_1
  = [0; 250; 500; 750].
Proof.
  apply (every_tick_written Scenario.loading_1 Player.sample_1
           Scenario.quarter_second_ticks).
  - reflexivity.
  - repeat constructor.
Defined.

(** C4 as stated fails: whatever the interval, two ticks closer than it
    are both written. *)
Lemma writes_not_throttled :
  (forall gap : Z,
     Player.write_times (Scenario.two_ticks gap) Scenario.loading_1 = [0; gap]) /\
  ~ Stated.writes_throttled.
Proof.
  assert (Htimes : forall gap,
            Player.write_times (Scenario.two_ticks gap) Scenario.loading_1
            = [0; gap]).
  { intros gap.
    apply (TickFacts.write_times_positive Scenario.loading_1 Player.sample_1);
      [reflexivity | repeat constructor]. }
  split; [exact Htimes |].
  intros [interval [Hpos H]].
  specialize (H Scenario.loading_1 Player.sample_1
                (Scenario.two_ticks (interval - 1)) eq_refl
                (TickFacts.two_ticks_ascending (interval - 1) ltac:(lia))).
  rewrite Htimes in H.
  specialize (H 0%nat 1%nat 0 (interval - 1) ltac:(lia) eq_refl eq_refl).
  lia.
Qed.



(** ** The playback rate *)

(** C6 (amended): [setPlaybackRate] makes no membership check and
    never raises [InvalidRateError].  For every text that [parseFloat]
    reads as a number of the allowed set it returns, stores that number
    as [playbackRate], sets it on the audio element and shows the
    notification; each of the six values the rate selector offers reads
    as a number of the allowed set, so is applied. *)
Theorem rate_applied_unchecked (st : Player.State) (rate : string)
    (r : JS.dec) :
  JS.parseFloat rate = JS.Num r -> Player.allowed r = true ->
  (exists st',
     Player.setPlaybackRate rate st = Player.Returned st' /\
     Player.playbackRate st' = JS.Num r /\
     Player.a_playbackRate (Player.audio st') = JS.Num r /\
     Player.notifications (Player.dom st')
     = Player.notifications (Player.dom st)
       ++ [("Velocidad: " +:+ rate +:+ "x", "info"%string)]) /\
  (forall (any : string) (st' : Player.State),
     Player.setPlaybackRate any st <> Player.Thrown "InvalidRateError" st') /\
  Forall (fun offered =>
            exists v, JS.parseFloat offered = JS.Num v /\
                      Player.allowed v = true)
         Player.offered_rates.
Proof.
  intros Hparse _. split; [| split].
  - unfold Player.setPlaybackRate.
    change (Player.playbackRate
              (Player.set_playbackRate (JS.parseFloat rate) st))
      with (JS.parseFloat rate).
    rewrite Hparse.
    eexists. split; [reflexivity |]. repeat split; reflexivity.
  - intros any st'. unfold Player.setPlaybackRate.
    change (Player.playbackRate
              (Player.set_playbackRate (JS.parseFloat any) st))
      with (JS.parseFloat any).
    destruct (JS.parseFloat any); discriminate.
  - repeat constructor; eexists; split; reflexivity.
Qed.

(** The rate 1.5, of the allowed set, is applied. *)
Lemma rate_applied_witness :
  exists st',
    Player.setPlaybackRate "1.5" (Player.init ∅) = Player.Returned st' /\
    Player.playbackRate st' = JS.Num (JS.Dec 15 1) /\
    Player.a_playbackRate (Player.audio st') = JS.Num (JS.Dec 15 1) /\
    Player.notifications (Player.dom st')
    = [("Velocidad: 1.5x"%string, "info"%string)].
Proof.
  exact (proj1 (rate_applied_unchecked (Player.init ∅) "1.5" (JS.Dec 15 1)
                  eq_refl eq_refl)).
Defined.

(** C6 as stated fails: the rate 3 is not in the allowed set, and
    [setPlaybackRate("3")] returns with the stored rate changed from 1
    to 3. *)
Lemma unlisted_rate_accepted :
  Player.allowed (JS.Dec 3 0) = false /\
  Player.playbackRate (Player.init ∅) = JS.of_Z 1 /\
  (exists st', Player.setPlaybackRate "3" (Player.init ∅)
               = Player.Returned st' /\
               Player.playbackRate st' = JS.of_Z 3) /\
  ~ Stated.invalid_rate_rejected.
Proof.
  split; [reflexivity |]. split; [reflexivity |].
  split; [eexists; split; reflexivity |].
  intros [H _].
  destruct (H (Player.init ∅) "3"%string eq_refl) as [st' [Hthrown _]].
  vm_compute in Hthrown. discriminate.
Qed.

Example rate_not_a_number :
  exists st', Player.setPlaybackRate "fast" (Player.init ∅)
              = Player.Thrown "TypeError" st' /\
              Player.playbackRate st' = JS.NaN.
Proof. eexists. split; reflexivity. Qed.

(** ** Loading an episode with saved progress *)

(** C7 (amended): [playEpisode] of a catalog episode whose saved
    progress reads as a whole number of seconds above 0 that a double
    holds exactly (below 2^53) sets the position of the audio element
    to that number at once, the duration being still unknown, and asks
    the element to play; [isPlaying] is left as it was until the
    [play()] promise is fulfilled, and is true from then on, with no
    further command of the user. *)
Theorem load_with_progress_plays (st : Player.State) (e : Player.Episode)
    (z : Z) :
  Player.find_episode (Player.ep_id e) st = Some e ->
  Player.getEpisodeProgress (Player.ep_id e) st = JS.of_Z z ->
  0 < z -> JS.safe_integer z = true ->
  let st1 := Player.playEpisode (Player.ep_id e) st in
  Player.a_currentTime (Player.audio st1) = JS.of_Z z /\
  Player.a_duration (Player.audio st1) = JS.NaN /\
  Player.paused (Player.audio st1) = false /\
  Player.pending st1 = Player.pending st ++ [Player.PlayEpisodeThen e] /\
  Player.isPlaying st1 = Player.isPlaying st /\
  Player.isPlaying (Player.settle (length (Player.pending st)) true st1) = true.
Proof.
  intros Hfind Hz Hpos _ st1.
  destruct (CommandFacts.playEpisode_fields st e Hfind)
    as (_ & Hpending & Hplaying & Htime & Hdur & Hpaused & _).
  fold st1 in Hpending, Hplaying, Htime, Hdur, Hpaused.
  rewrite Hz, PositionFacts.gt_of_Z in Htime.
  apply Z.ltb_lt in Hpos. rewrite Hpos in Htime.
  split; [exact Htime |]. split; [exact Hdur |]. split; [exact Hpaused |].
  split; [exact Hpending |]. split; [exact Hplaying |].
  rewrite (CommandFacts.settle_middle st1 (Player.pending st)
             (Player.PlayEpisodeThen e) [] true Hpending).
  apply CommandFacts.react_fulfilled.
Qed.

(** Episode 1, left at 125 s: the element is put at 125 s and plays. *)
Lemma load_with_progress_witness :
  let st1 := Player.playEpisode 1 Scenario.with_progress_125 in
  Player.a_currentTime (Player.audio st1) = JS.of_Z 125 /\
  Player.isPlaying (Player.settle 0 true st1) = true.
Proof.
  destruct (load_with_progress_plays Scenario.with_progress_125
              Player.sample_1 125 eq_refl eq_refl eq_refl eq_refl)
    as (H1 & _ & _ & _ & _ & H2).
  split; [exact H1 | exact H2].
Defined.

(** C7 as stated fails: after the load of episode 1 with 125 s saved,
    the metadata and the fulfilment of [play()], the player is playing
    though the user has not asked for it. *)
Lemma load_autoplays :
  Player.isPlaying Scenario.with_progress_125 = false /\
  Player.isPlaying
    (Player.run [Player.PlayEpisode 1; Player.LoadedMetadata (JS.of_Z 2700);
                 Player.Settle 0 true] Scenario.with_progress_125) = true /\
  ~ Stated.load_never_autoplays.
Proof.
  split; [reflexivity |]. split; [reflexivity |].
  intros H.
  destruct (H Scenario.with_progress_125 Player.sample_1 (JS.of_Z 2700) true
              eq_refl eq_refl eq_refl) as [_ Hplaying].
  vm_compute in Hplaying. discriminate.
Qed.

(** ** Restoration *)

Module RestoreFacts.
Import Restoration SpecEngine JS.

Lemma clamp_in_range v d :
  dec_leb (Dec 0 0) v = true -> dec_leb v d = true ->
  clamp (Num v) (Num d) = Num v.
Proof.
  intros H0 Hd. unfold clamp, min, max, of_Z. rewrite Hd, H0. reflexivity.
Qed.

(** The engine of the specification meets the contracts. *)
Lemma spec_service_laws metadata :
  @AudioServiceLaws Engine (spec_service metadata).
Proof.
  split.
  - intros ep s s'. cbn. unfold spec_loadEpisode.
    destruct (metadata ep); intros [= <-]. repeat split; reflexivity.
  - intros v s s'. cbn. unfold spec_seekTo.
    destruct (phase s) eqn:Hph; destruct (current s) eqn:Hcur;
      intros [= <-]; unfold spec_getState; cbn; rewrite ?Hph;
      repeat split; reflexivity.
Qed.

(** Whatever the pointer, a lookup that finds nothing changes nothing,
    and one that fails clears the pointer. *)
Lemma onMount_unresolved (getEpisodeById : string -> Lookup)
    (c : Coordinator) (l : LastPlayback) :
  lastPlaybackState c = Some l -> episodeId l <> ""%string ->
  (getEpisodeById (episodeId l) = NotFound -> onMount getEpisodeById c = c) /\
  (getEpisodeById (episodeId l) = Failed ->
   onMount getEpisodeById c = clearLastPlaybackState c).
Proof.
  intros Hl Hid. unfold onMount, loadEpisodeForRestoration.
  rewrite Hl. apply String.eqb_neq in Hid. rewrite Hid.
  split; intros ->; reflexivity.
Qed.

End RestoreFacts.

Section Restore.
Context {Engine : Type} {service : Restoration.AudioService Engine}
  {laws : SpecEngine.AudioServiceLaws Engine}.

(** C8 (amended): with the prompt up for a resolved episode and a
    saved pointer, [handleRestore] awaits [loadEpisode] of that episode
    and then [seekTo] of the saved position, and nothing else of the
    service; when both resolve, the engine is left as the seek left it,
    which by the contracts of the engine is [Ready(Paused)] on that
    episode (not playing, not loading) at the saved position clamped
    into [[0, duration]], that is at the saved position itself when it
    lies in that range; the pointer is cleared and the prompt closed. *)
Theorem restore_leaves_paused (c : Restoration.Coordinator) (s s1 s2 : Engine)
    (ep : Restoration.Episode) (l : Restoration.LastPlayback) :
  Restoration.episode c = Some ep ->
  Restoration.lastPlaybackState c = Some l ->
  Restoration.loadEpisode ep s = Restoration.Resolved s1 ->
  Restoration.seekTo (Restoration.position l) s1 = Restoration.Resolved s2 ->
  let '(c', s') := Restoration.handleRestore c s in
  s' = s2 /\
  SpecEngine.paused_on ep (Restoration.getState s') /\
  Restoration.audioPosition (Restoration.getState s')
  = SpecEngine.clamp (Restoration.position l)
      (Restoration.duration (Restoration.getState s')) /\
  (forall v d,
     Restoration.position l = JS.Num v ->
     Restoration.duration (Restoration.getState s') = JS.Num d ->
     JS.dec_leb (JS.Dec 0 0) v = true -> JS.dec_leb v d = true ->
     Restoration.audioPosition (Restoration.getState s') = JS.Num v) /\
  Restoration.lastPlaybackState c' = None /\
  Restoration.promptShown c' = false /\
  Restoration.isLoading c' = false.
Proof.
  intros Hep Hl Hload Hseek.
  unfold Restoration.handleRestore. rewrite Hep, Hl, Hload, Hseek.
  destruct (SpecEngine.load_resolved ep s s1 Hload) as (Hcur & Hplay & Hloading).
  destruct (SpecEngine.seek_resolved _ s1 s2 Hseek)
    as (Hcur2 & Hplay2 & Hloading2 & Hdur2 & Hpos2).
  assert (Hclamp : Restoration.audioPosition (Restoration.getState s2)
                   = SpecEngine.clamp (Restoration.position l)
                       (Restoration.duration (Restoration.getState s2)))
    by (rewrite Hpos2, Hdur2; reflexivity).
  split; [reflexivity |]. split; [| split; [exact Hclamp | split]].
  - unfold SpecEngine.paused_on. rewrite Hcur2, Hplay2, Hloading2. auto.
  - intros v d Hv Hd Hzero Hvd. rewrite Hclamp, Hv, Hd.
    apply RestoreFacts.clamp_in_range; assumption.
  - cbn. auto.
Qed.
End Restore.

(** Resume for [E1] saved at 125 s, on the engine of the specification:
    paused at 125 s, pointer cleared, prompt closed. *)
Lemma restore_leaves_paused_witness :
  let '(c', s') :=
    @Restoration.handleRestore _
      (SpecEngine.spec_service Scenario.known_duration)
      Scenario.prompt_E1 SpecEngine.idle in
  SpecEngine.phase s' = SpecEngine.ReadyPaused /\
  SpecEngine.pos s' = JS.of_Z 125 /\
  Restoration.lastPlaybackState c' = None /\
  Restoration.promptShown c' = false.
Proof.
  pose proof (@restore_leaves_paused _
                (SpecEngine.spec_service Scenario.known_duration)
                (RestoreFacts.spec_service_laws Scenario.known_duration)
                Scenario.prompt_E1 SpecEngine.idle _ _
                Scenario.episode_E1 Scenario.saved_E1
                eq_refl eq_refl eq_refl eq_refl) as Hrestore.
  destruct (Restoration.handleRestore Scenario.prompt_E1 SpecEngine.idle)
    as [c' s'].
  destruct Hrestore as (-> & _ & _ & _ & Hcleared & Hprompt & _).
  split; [reflexivity |]. split; [reflexivity |].
  split; [exact Hcleared | exact Hprompt].
Defined.

(** C8 as stated fails: a pointer at 5000 s into [E1], of 2700 s, is
    resumed at 2700 s, the seek of the engine clamping the position it
    is given. *)
Lemma restore_clamps_position :
  (let '(_, s') :=
     @Restoration.handleRestore _
       (SpecEngine.spec_service Scenario.known_duration)
       Scenario.prompt_E1_beyond SpecEngine.idle in
   SpecEngine.phase s' = SpecEngine.ReadyPaused /\
   SpecEngine.pos s' = JS.of_Z 2700) /\
  Restoration.position Scenario.saved_E1_beyond = JS.of_Z 5000 /\
  ~ Stated.restore_at_saved_position.
Proof.
  split; [split; reflexivity |]. split; [reflexivity |].
  intros H.
  specialize (H SpecEngine.Engine
                (SpecEngine.spec_service Scenario.known_duration)
                (RestoreFacts.spec_service_laws Scenario.known_duration)
                Scenario.prompt_E1_beyond SpecEngine.idle
                Scenario.episode_E1 Scenario.saved_E1_beyond
                eq_refl eq_refl).
  vm_compute in H. destruct H as [_ H]. discriminate.
Qed.

(** C9 (the component against the claim): at a cold start with a saved
    pointer to [E1], when the lookup gives no episode the prompt is not
    shown but the pointer is kept; it is cleared only when the lookup
    fails with an error, under the comment [Clear invalid state].  So
    the claim, as stated, does not hold of the component. *)
Theorem not_found_keeps_pointer :
  (let c' := Restoration.onMount (fun _ => Restoration.NotFound)
               Scenario.cold_start_E1 in
   Restoration.promptShown c' = false /\
   Restoration.lastPlaybackState c' = Some Scenario.saved_E1) /\
  (let c' := Restoration.onMount (fun _ => Restoration.Failed)
               Scenario.cold_start_E1 in
   Restoration.promptShown c' = false /\
   Restoration.lastPlaybackState c' = None) /\
  ~ Stated.unresolvable_cleared.
Proof.
  split; [split; reflexivity |]. split; [split; reflexivity |].
  intros H.
  destruct (H (fun _ => Restoration.NotFound) Scenario.cold_start_E1
              Scenario.saved_E1 eq_refl)
    as [Hcleared _]; [discriminate | left; reflexivity |].
  vm_compute in Hcleared. discriminate.
Qed.

(** ** Saved progress read back *)




(** ** Runs of the player *)

Module RunFacts.
Import Player JS PlayerFacts Invariant.

(** A property kept by every step holds along every run. *)
Lemma run_invariant (P : State -> Prop) :
  (forall ev st, P st -> P (step ev st)) ->
  forall evs st, P st -> P (run evs st).
Proof.
  intros Hstep evs. induction evs as [| ev evs IH]; intros st HP; [exact HP |].
  apply IH, Hstep, HP.
Qed.

Lemma run_invariant_on (ok : Event -> Prop) (P : State -> Prop) :
  (forall ev st, ok ev -> P st -> P (step ev st)) ->
  forall evs st, Forall ok evs -> P st -> P (run evs st).
Proof.
  intros Hstep evs. induction evs as [| ev evs IH]; intros st Hok HP;
    [exact HP |].
  inversion Hok; subst. apply IH; [assumption |]. apply Hstep; assumption.
Qed.

(** The key of the saved object is not the key of a position. *)
Lemma progress_key_not_data episodeId :
  progress_key episodeId <> "podcastAppData"%string.
Proof. unfold progress_key. cbn. discriminate. Qed.











(** No step starts playing, or leaves a promise pending, without a
    current episode. *)
Lemma step_idle_without_episode ev st :
  idle_without_episode st -> idle_without_episode (step ev st).
Proof.
  unfold idle_without_episode. intros Inv.
  assert (Same : forall st', currentEpisode st' = currentEpisode st ->
            isPlaying st' = isPlaying st -> pending st' = pending st ->
            currentEpisode st' = None ->
            isPlaying st' = false /\ pending st' = []).
  { intros st' -> -> ->. exact Inv. }
  destruct ev as [episodeId | | | | rate | t | d | | | | i ok]; cbn [step].
  - unfold playEpisode. destruct (find_episode episodeId st); [| exact Inv].
    destruct (gt _ _); intros H; discriminate H.
  - unfold togglePlayPause.
    destruct (currentEpisode st) as [e |] eqn:He; [| rewrite He; exact Inv].
    rewrite CommandFacts.updateMiniPlayer_dom.
    destruct (isPlaying st); intros H; cbn in H; congruence.
  - unfold skipForward. destruct (truthy _); [apply Same; reflexivity | exact Inv].
  - unfold skipBackward. destruct (truthy _); [apply Same; reflexivity | exact Inv].
  - unfold setPlaybackRate.
    change (playbackRate (set_playbackRate (parseFloat rate) st))
      with (parseFloat rate).
    destruct (parseFloat rate); apply Same; reflexivity.
  - apply Same; reflexivity.
  - apply Same; reflexivity.
  - unfold on_timeupdate, updateProgress, saveProgress.
    change (currentEpisode (set_currentTime (a_currentTime (audio st)) st))
      with (currentEpisode st).
    destruct (currentEpisode st) as [e |] eqn:He.
    + destruct (gt _ _); intros H; cbn in H; congruence.
    + intros _. apply Inv. reflexivity.
  - intros H. change (currentEpisode st = None) in H.
    destruct (Inv H) as [_ Hp]. split; [reflexivity | exact Hp].
  - apply Same; reflexivity.
  - unfold settle. destruct (pending st !! i) as [r |] eqn:Hr; [| exact Inv].
    assert (Hcur : currentEpisode st <> None).
    { intros H. destruct (Inv H) as [_ Hp]. rewrite Hp in Hr. discriminate. }
    intros H. exfalso. apply Hcur. rewrite <- H.
    destruct r as [e |], ok; try reflexivity.
    unfold react. rewrite CommandFacts.updateMiniPlayer_dom. reflexivity.
Qed.

(** Only the [loadedmetadata] handler sets the duration. *)
Lemma step_duration ev st :
  not_metadata ev -> duration (step ev st) = duration st.
Proof.
  destruct ev as [episodeId | | | | rate | t | d | | | | i ok]; cbn [step];
    intros Hev; try reflexivity.
  - unfold playEpisode. destruct (find_episode episodeId st); [| reflexivity].
    destruct (gt _ _); reflexivity.
  - unfold togglePlayPause. destruct (currentEpisode st); [| reflexivity].
    rewrite CommandFacts.updateMiniPlayer_dom.
    destruct (isPlaying st); reflexivity.
  - unfold skipForward. destruct (truthy _); reflexivity.
  - unfold skipBackward. destruct (truthy _); reflexivity.
  - unfold setPlaybackRate.
    change (playbackRate (set_playbackRate (parseFloat rate) st))
      with (parseFloat rate).
    destruct (parseFloat rate); reflexivity.
  - destruct Hev.
  - unfold on_timeupdate, updateProgress, saveProgress.
    change (currentEpisode (set_currentTime (a_currentTime (audio st)) st))
      with (currentEpisode st).
    destruct (currentEpisode st); [| reflexivity].
    destruct (gt _ _); reflexivity.
  - unfold settle. destruct (pending st !! i) as [r |]; [| reflexivity].
    destruct r as [e |], ok; try reflexivity.
    unfold react. rewrite CommandFacts.updateMiniPlayer_dom. reflexivity.
Qed.

(** The saved progress of an episode depends on its key only, and
    [saveData] writes under another key. *)
Lemma getEpisodeProgress_key episodeId st st' :
  localStorage st' !! progress_key episodeId
  = localStorage st !! progress_key episodeId ->
  getEpisodeProgress episodeId st' = getEpisodeProgress episodeId st.
Proof. intros H. unfold getEpisodeProgress. rewrite H. reflexivity. Qed.

Lemma saveData_progress episodeId st :
  getEpisodeProgress episodeId (saveData st) = getEpisodeProgress episodeId st.
Proof.
  apply getEpisodeProgress_key.
  change (localStorage (saveData st))
    with (<["podcastAppData"%string :=
             Json {| sd_analytics := analytics st;
                     sd_episodes :=
                       map (fun e => (ep_id e, getEpisodeProgress (ep_id e) st))
                         (episodes st) |}]> (localStorage st)).
  apply lookup_insert_ne. intros H. symmetry in H.
  exact (progress_key_not_data _ H).
Qed.

End RunFacts.



(** X2: along every run of a player started on any store, when the
    player says it is playing, or a [play()] promise is still pending,
    there is a current episode. *)
Theorem playing_needs_episode (store : gmap string Player.Stored)
    (evs : list Player.Event) :
  let st := Player.run evs (Player.init store) in
  Player.isPlaying st = true \/ Player.pending st <> [] ->
  exists e, Player.currentEpisode st = Some e.
Proof.
  cbn zeta. intros Hbusy.
  pose proof (RunFacts.run_invariant Invariant.idle_without_episode
                RunFacts.step_idle_without_episode evs (Player.init store))
    as Inv.
  unfold Invariant.idle_without_episode in Inv.
  destruct (Player.currentEpisode (Player.run evs (Player.init store)))
    as [e |]; [exists e; reflexivity |].
  destruct Inv as [Hplay Hpend]; [intros _; split; reflexivity | reflexivity |].
  destruct Hbusy as [H | H]; [congruence | contradiction].
Qed.

(** Episode 1 playing from the start of a fresh player. *)
Lemma playing_needs_episode_witness :
  exists e, Player.currentEpisode Scenario.at_start_2700 = Some e.
Proof.
  apply (playing_needs_episode ∅
           [Player.PlayEpisode 1; Player.Settle 0 true;
            Player.LoadedMetadata (JS.of_Z 2700)]).
  left. reflexivity.
Defined.

(** X3: only a [timeupdate] changes a saved position.  Every other
    event (a command, a move of the media clock, the other audio
    events, the settling of a [play()] promise) leaves what
    [getEpisodeProgress] reads unchanged, for every episode: the writes
    of [saveData] go to another key. *)
Theorem only_timeupdate_moves_progress (ev : Player.Event) (st : Player.State)
    (episodeId : N) :
  ev <> Player.TimeUpdate ->
  Player.getEpisodeProgress episodeId (Player.step ev st)
  = Player.getEpisodeProgress episodeId st.
Proof.
  intros Hev.
  assert (Same : forall st', Player.localStorage st' = Player.localStorage st ->
            Player.getEpisodeProgress episodeId st'
            = Player.getEpisodeProgress episodeId st)
    by (intros st'; apply PlayerFacts.getEpisodeProgress_store).
  destruct ev as [id | | | | rate | t | d | | | | i ok]; cbn [Player.step].
  - unfold Player.playEpisode.
    destruct (Player.find_episode id st); [| reflexivity].
    destruct (JS.gt _ _); apply Same; reflexivity.
  - apply Same, CommandFacts.togglePlayPause_store.
  - unfold Player.skipForward. destruct (JS.truthy _); reflexivity.
  - unfold Player.skipBackward. destruct (JS.truthy _); reflexivity.
  - unfold Player.setPlaybackRate.
    change (Player.playbackRate (Player.set_playbackRate (JS.parseFloat rate) st))
      with (JS.parseFloat rate).
    destruct (JS.parseFloat rate); reflexivity.
  - reflexivity.
  - reflexivity.
  - contradiction.
  - unfold Player.on_ended, Player.handleEpisodeEnd.
    set (st2 := Player.set_analytics _ _).
    transitivity (Player.getEpisodeProgress episodeId (Player.saveData st2));
      [apply PlayerFacts.getEpisodeProgress_store; reflexivity |].
    rewrite RunFacts.saveData_progress. reflexivity.
  - reflexivity.
  - unfold Player.settle. destruct (Player.pending st !! i) as [r |];
      [| reflexivity].
    destruct r as [e |], ok; try reflexivity.
    unfold Player.react. rewrite CommandFacts.updateMiniPlayer_dom.
    unfold Player.trackPlay.
    set (st2 := Player.set_analytics _ _).
    transitivity (Player.getEpisodeProgress episodeId (Player.saveData st2));
      [apply PlayerFacts.getEpisodeProgress_store; reflexivity |].
    rewrite RunFacts.saveData_progress. reflexivity.
Qed.

(** The end of episode 1, last ticked at 125.5 s, leaves its saved
    position at 125. *)
Lemma only_timeupdate_moves_progress_witness :
  Player.getEpisodeProgress 1
    (Player.step Player.Ended Scenario.ticked_at_125_5)
  = JS.of_Z 125.
Proof.
  rewrite (only_timeupdate_moves_progress Player.Ended
             Scenario.ticked_at_125_5 1); [reflexivity | discriminate].
Defined.

(** X4: [skipForward] before the metadata.  As long as no
    [loadedmetadata] has been handled, the duration the player holds is
    the 0 of the constructor, so that from any position above 0
    [skipForward] puts the element back at 0: [Math.min(p + 30, 0)]. *)
Theorem skipForward_before_metadata (store : gmap string Player.Stored)
    (evs : list Player.Event) (p : JS.dec) :
  Forall Invariant.not_metadata evs ->
  let st := Player.run evs (Player.init store) in
  Player.a_currentTime (Player.audio st) = JS.Num p -> 0 < JS.coef p ->
  Player.duration st = JS.of_Z 0 /\
  Player.a_currentTime (Player.audio (Player.skipForward st)) = JS.of_Z 0.
Proof.
  intros Hevs st Hp Hpos.
  assert (Hd : Player.duration st = JS.of_Z 0).
  { subst st.
    apply (RunFacts.run_invariant_on Invariant.not_metadata
             (fun st => Player.duration st = JS.of_Z 0)); [| exact Hevs | reflexivity].
    intros ev s Hev Hs. rewrite RunFacts.step_duration; assumption. }
  split; [exact Hd |].
  unfold Player.skipForward. rewrite Hp.
  assert (Ht : JS.truthy (JS.Num p) = true).
  { unfold JS.truthy. apply negb_true_iff, Z.eqb_neq. lia. }
  rewrite Ht.
  change (JS.min (JS.add (JS.Num p) (JS.of_Z 30)) (Player.duration st) = JS.of_Z 0).
  rewrite Hd. unfold JS.add, JS.of_Z, JS.min.
  assert (Hle : JS.dec_leb (JS.dec_add p (JS.Dec 30 0)) (JS.Dec 0 0) = false).
  { rewrite (JSArith.units_leb (JS.scale p)); cbn [JS.scale]; try lia.
    - rewrite JSArith.units_add by (cbn [JS.scale]; lia).
      apply Z.leb_gt. unfold JS.units. cbn [JS.coef JS.scale].
      rewrite Nat.sub_diag. change (JS.pow10 0) with 1.
      pose proof (JSArith.pow10_pos (JS.scale p - 0)). nia.
    - unfold JS.dec_add. cbn [JS.scale]. lia. }
  rewrite Hle. reflexivity.
Qed.

(** Episode 1 started on a fresh player and at 10 s, no metadata yet:
    the skip goes to 0. *)
Lemma skipForward_before_metadata_witness :
  Player.a_currentTime (Player.audio (Player.skipForward Case.no_metadata_at_10))
  = JS.of_Z 0.
Proof.
  apply (skipForward_before_metadata ∅
           [Player.PlayEpisode 1; Player.Settle 0 true;
            Player.Clock (JS.of_Z 10)] (JS.Dec 10 0)).
  - repeat constructor.
  - reflexivity.
  - reflexivity.
Defined.

(** ** More on positions *)

(** X6: an episode that has ended starts again where its last tick
    left it.  [handleEpisodeEnd] does not reset the saved position, so
    after a tick at [t] (from 0.000001 up to 10^21), the end of the
    episode and a new [playEpisode] of it, the element is put at the
    integer part of [t], not at 0. *)
Theorem finished_episode_resumes (st : Player.State) (e : Player.Episode)
    (t : JS.dec) :
  Player.currentEpisode st = Some e ->
  Player.find_episode (Player.ep_id e) st = Some e ->
  JS.positional t = true ->
  let st' :=
    Player.playEpisode (Player.ep_id e)
      (Player.on_ended (Player.handle_tick (JS.Num t) st)) in
  Player.currentEpisode st' = Some e /\
  Player.a_currentTime (Player.audio st') = JS.of_Z (JS.trunc t).
Proof.
  intros He Hfind Hpos. cbn zeta.
  set (st1 := Player.handle_tick (JS.Num t) st).
  set (st2 := Player.on_ended st1).
  assert (Hgt : JS.gt (JS.Num t) (JS.of_Z 0) = true)
    by (apply PlayerFacts.positional_gt, Hpos).
  assert (Hp1 : Player.getEpisodeProgress (Player.ep_id e) st1
                = JS.of_Z (JS.trunc t)).
  { apply PlayerFacts.getEpisodeProgress_stored; [exact Hpos |].
    subst st1. rewrite (TickFacts.handle_tick_positive st e _ He Hgt).
    apply lookup_insert_eq. }
  assert (Hp2 : Player.getEpisodeProgress (Player.ep_id e) st2
                = JS.of_Z (JS.trunc t)).
  { rewrite <- Hp1. subst st2.
    unfold Player.on_ended, Player.handleEpisodeEnd.
    set (s := Player.set_analytics _ _).
    transitivity (Player.getEpisodeProgress (Player.ep_id e) (Player.saveData s));
      [apply PlayerFacts.getEpisodeProgress_store; reflexivity |].
    rewrite RunFacts.saveData_progress. reflexivity. }
  assert (Hfind2 : Player.find_episode (Player.ep_id e) st2 = Some e).
  { rewrite <- Hfind. subst st2 st1.
    rewrite (TickFacts.handle_tick_positive st e _ He Hgt). reflexivity. }
  destruct (CommandFacts.playEpisode_fields st2 e Hfind2)
    as (Hcur & _ & _ & Htime & _).
  cbn zeta in Htime. split; [exact Hcur |].
  rewrite Htime, Hp2, PositionFacts.gt_of_Z.
  destruct (0 <? JS.trunc t) eqn:Hz; [reflexivity |].
  apply Z.ltb_ge in Hz.
  pose proof (PositionFacts.trunc_nonneg t) as Hnn.
  destruct t as [c sc]. pose proof (JSText.positional_pos c sc Hpos).
  cbn [JS.coef] in Hnn. f_equal. lia.
Qed.

(** Episode 1 ticked at 2680.5 s of its 2700 s, ended and played again:
    it starts at 2680 s. *)
Lemma finished_episode_resumes_witness :
  Player.a_currentTime
    (Player.audio
       (Player.playEpisode 1
          (Player.on_ended
             (Player.handle_tick (JS.Num (JS.Dec 26805 1)) Case.near_end))))
  = JS.of_Z 2680.
Proof.
  apply (finished_episode_resumes Case.near_end Player.sample_1
           (JS.Dec 26805 1)); reflexivity.
Defined.

(** X7: [playEpisode] of a catalog episode puts the element at a whole
    number of seconds that is not negative, whenever what is saved for
    the episode reads as nothing, as no number, or as a whole number
    that a double holds exactly: the saved text is read with [parseInt],
    and is used only when it reads as a number above 0. *)
Theorem playEpisode_position_whole (st : Player.State) (e : Player.Episode) :
  Player.find_episode (Player.ep_id e) st = Some e ->
  (forall z : Z,
     Player.getEpisodeProgress (Player.ep_id e) st = JS.of_Z z ->
     JS.safe_integer z = true) ->
  exists z : Z,
    0 <= z /\ JS.safe_integer z = true /\
    Player.a_currentTime (Player.audio (Player.playEpisode (Player.ep_id e) st))
    = JS.of_Z z.
Proof.
  intros Hfind Hsafe.
  destruct (CommandFacts.playEpisode_fields st e Hfind)
    as (_ & _ & _ & Htime & _).
  cbn zeta in Htime. rewrite Htime.
  destruct (PositionFacts.getEpisodeProgress_whole (Player.ep_id e) st)
    as [Hnan | [z Hz]].
  - rewrite Hnan. exists 0. split; [lia |]. split; reflexivity.
  - specialize (Hsafe z Hz). rewrite Hz, PositionFacts.gt_of_Z.
    destruct (0 <? z) eqn:Hpos.
    + apply Z.ltb_lt in Hpos. exists z. split; [lia |].
      split; [exact Hsafe | reflexivity].
    + exists 0. split; [lia |]. split; reflexivity.
Qed.

(** Episode 1 with the text [125] saved. *)
Lemma playEpisode_position_whole_witness :
  exists z : Z,
    0 <= z /\ JS.safe_integer z = true /\
    Player.a_currentTime
      (Player.audio (Player.playEpisode 1 Scenario.with_progress_125))
    = JS.of_Z z.
Proof.
  apply (playEpisode_position_whole Scenario.with_progress_125 Player.sample_1).
  - reflexivity.
  - intros z Hz. change (JS.of_Z 125 = JS.of_Z z) in Hz.
    injection Hz as <-. reflexivity.
Defined.

(** X8: the skips stay inside the episode.  From a position [p] with
    [0 < p <= d], [d] being the duration the player holds,
    [skipForward] moves the element to a position from [p] to [d], and
    [skipBackward] to a position from 0 to [p]. *)
Theorem skips_stay_in_range (st : Player.State) (p d : JS.dec) :
  Player.a_currentTime (Player.audio st) = JS.Num p ->
  Player.duration st = JS.Num d ->
  0 < JS.coef p -> JS.dec_leb p d = true ->
  (exists q,
     Player.a_currentTime (Player.audio (Player.skipForward st)) = JS.Num q /\
     JS.dec_leb p q = true /\ JS.dec_leb q d = true) /\
  (exists q,
     Player.a_currentTime (Player.audio (Player.skipBackward st)) = JS.Num q /\
     JS.dec_leb (JS.Dec 0 0) q = true /\ JS.dec_leb q p = true).
Proof.
  intros Hp Hd Hpos Hpd.
  assert (Ht : JS.truthy (JS.Num p) = true).
  { unfold JS.truthy. apply negb_true_iff, Z.eqb_neq. lia. }
  assert (Hrefl : forall a, JS.dec_leb a a = true).
  { intros a. unfold JS.dec_leb. apply Z.leb_refl. }
  pose proof (JSArith.pow10_pos (JS.scale p)) as Pp.
  assert (Hup : 0 < JS.units (JS.scale p) p).
  { unfold JS.units. rewrite Nat.sub_diag. change (JS.pow10 0) with 1. lia. }
  split.
  - unfold Player.skipForward. rewrite Hp, Ht.
    change (Player.a_currentTime (Player.audio (Player.set_audio ?a st)))
      with (Player.a_currentTime a).
    change (Player.a_currentTime (Player.audio_set_currentTime ?t ?a)) with t.
    rewrite Hd. unfold JS.add, JS.of_Z, JS.min.
    destruct (JS.dec_leb (JS.dec_add p (JS.Dec 30 0)) d) eqn:Hle.
    + eexists. split; [reflexivity |]. split; [| exact Hle].
      rewrite (JSArith.units_leb (JS.scale p));
        [| lia | unfold JS.dec_add; cbn [JS.scale]; lia].
      rewrite JSArith.units_add by (cbn [JS.scale]; lia).
      apply Z.leb_le. unfold JS.units at 3. cbn [JS.coef JS.scale].
      pose proof (JSArith.pow10_pos (JS.scale p - 0)). nia.
    + exists d. split; [reflexivity |]. split; [exact Hpd | apply Hrefl].
  - unfold Player.skipBackward. rewrite Hp, Ht.
    change (Player.a_currentTime (Player.audio (Player.set_audio ?a st)))
      with (Player.a_currentTime a).
    change (Player.a_currentTime (Player.audio_set_currentTime ?t ?a)) with t.
    unfold JS.sub, JS.of_Z, JS.max.
    destruct (JS.dec_leb (JS.dec_add p (JS.dec_opp (JS.Dec 15 0))) (JS.Dec 0 0))
      eqn:Hle.
    + exists (JS.Dec 0 0). split; [reflexivity |]. split; [apply Hrefl |].
      unfold JS.dec_leb. cbn [JS.coef JS.scale]. apply Z.leb_le.
      change (JS.pow10 0) with 1. lia.
    + eexists. split; [reflexivity |].
      assert (Hs : (JS.scale (JS.dec_add p (JS.dec_opp (JS.Dec 15 0)))
                    <= JS.scale p)%nat)
        by (unfold JS.dec_add, JS.dec_opp; cbn [JS.scale]; lia).
      rewrite (JSArith.units_leb (JS.scale p)) in Hle
        by (cbn [JS.scale]; lia).
      rewrite JSArith.units_add in Hle
        by (unfold JS.dec_opp; cbn [JS.scale]; lia).
      rewrite JSArith.units_opp in Hle. apply Z.leb_gt in Hle.
      split.
      * rewrite (JSArith.units_leb (JS.scale p)) by (cbn [JS.scale]; lia).
        rewrite JSArith.units_add by (unfold JS.dec_opp; cbn [JS.scale]; lia).
        rewrite JSArith.units_opp. apply Z.leb_le. lia.
      * rewrite (JSArith.units_leb (JS.scale p)) by (cbn [JS.scale]; lia).
        rewrite JSArith.units_add by (unfold JS.dec_opp; cbn [JS.scale]; lia).
        rewrite JSArith.units_opp. apply Z.leb_le.
        assert (H15 : 0 <= JS.units (JS.scale p) (JS.Dec 15 0)).
        { unfold JS.units. cbn [JS.coef JS.scale].
          pose proof (JSArith.pow10_pos (JS.scale p - 0)). lia. }
        lia.
Qed.

(** Episode 1 at 2680.5 s of 2700 s: forward stops at or below 2700 s. *)
Lemma skips_stay_in_range_witness :
  exists q,
    Player.a_currentTime (Player.audio (Player.skipForward Case.near_end))
    = JS.Num q /\
    JS.dec_leb (JS.Dec 26805 1) q = true /\
    JS.dec_leb q (JS.Dec 2700 0) = true.
Proof.
  apply (skips_stay_in_range Case.near_end (JS.Dec 26805 1) (JS.Dec 2700 0));
    reflexivity.
Defined.

(** X9: an episode played to its end counts as two plays.  The
    fulfilment of the [play()] promise of [playEpisode] counts one
    ([trackPlay]) and the [ended] event counts another
    ([handleEpisodeEnd]); the total time grows once, by the full
    duration of the episode, when the play starts. *)
Theorem completed_play_counts_twice (st : Player.State) (i : nat)
    (e : Player.Episode) :
  Player.pending st !! i = Some (Player.PlayEpisodeThen e) ->
  let st' := Player.on_ended (Player.settle i true st) in
  Player.totalPlays (Player.analytics st')
  = (Player.totalPlays (Player.analytics st) + 2)%N /\
  Player.totalTime (Player.analytics st')
  = JS.add (Player.totalTime (Player.analytics st)) (Player.ep_duration e).
Proof.
  intros Hi st'. subst st'. unfold Player.settle. rewrite Hi.
  set (s := Player.set_pending _ st).
  destruct (CommandFacts.react_fulfilled e s) as (_ & _ & _ & _ & _ & _ & Ha).
  cbn zeta in Ha.
  unfold Player.on_ended, Player.handleEpisodeEnd.
  set (s1 := Player.react _ _ _) in *.
  change (Player.totalPlays (Player.analytics s1) + 1
          = Player.totalPlays (Player.analytics st) + 2
          /\ Player.totalTime (Player.analytics s1)
             = JS.add (Player.totalTime (Player.analytics st))
                 (Player.ep_duration e))%N.
  rewrite Ha. cbn [Player.totalPlays Player.totalTime].
  change (Player.analytics s) with (Player.analytics st).
  split; [lia | reflexivity].
Qed.

(** Episode 1 on a fresh player, started and ended: two plays. *)
Lemma completed_play_counts_twice_witness :
  Player.totalPlays
    (Player.analytics
       (Player.on_ended (Player.settle 0 true Scenario.loading_1)))
  = 2%N.
Proof.
  apply (completed_play_counts_twice Scenario.loading_1 0 Player.sample_1).
  reflexivity.
Defined.

(** X10: [selectEpisode] changes the current episode and leaves the
    audio element alone, so the next progress tick saves the position
    of whatever the element is playing under the key of the selected
    episode. *)
Theorem selected_episode_takes_position (st : Player.State)
    (e : Player.Episode) (p : JS.number) :
  Player.find_episode (Player.ep_id e) st = Some e ->
  JS.gt p (JS.of_Z 0) = true ->
  let st1 := Selection.selectEpisode (Player.ep_id e) st in
  Player.audio st1 = Player.audio st /\
  Player.localStorage st1 = Player.localStorage st /\
  Player.currentEpisode st1 = Some e /\
  Player.localStorage (Player.handle_tick p st1)
    !! Player.progress_key (Player.ep_id e)
  = Some (Player.Text (JS.toString p)).
Proof.
  intros Hfind Hgt st1. subst st1. unfold Selection.selectEpisode.
  rewrite Hfind. do 3 (split; [reflexivity |]).
  rewrite (TickFacts.handle_tick_positive
             (Player.set_currentEpisode (Some e) st) e p eq_refl Hgt).
  apply lookup_insert_eq.
Qed.

(** Episode 1 plays and is at 125.5 s; episode 2 is selected; the tick
    at 126 s is saved for episode 2. *)
Lemma selected_episode_takes_position_witness :
  Player.localStorage
    (Player.handle_tick (JS.of_Z 126)
       (Selection.selectEpisode 2 Scenario.ticked_at_125_5))
    !! "episode_progress_2"%string
  = Some (Player.Text "126").
Proof.
  apply (selected_episode_takes_position Scenario.ticked_at_125_5
           Player.sample_2 (JS.of_Z 126)); reflexivity.
Defined.

(** ** The time display *)

Module DisplayFacts.
Import JS JSMath Display.

(** The remainder by [k] units, in units. *)
Lemma rem_div_scale c P k :
  0 <= c -> 0 < P -> 0 < k -> Z.rem c (k * P) / P = Z.rem (c / P) k.
Proof.
  intros Hc HP Hk.
  assert (0 <= c / P) by (apply Z.div_pos; lia).
  rewrite !Z.rem_mod_nonneg by nia.
  rewrite (Z.mul_comm k P), Z.rem_mul_r by lia.
  rewrite (Z.add_comm (c mod P)), Z.mul_comm, Z.div_add_l by lia.
  rewrite (Z.div_small (c mod P)) by (apply Z.mod_pos_bound; lia).
  lia.
Qed.

Lemma div_div_scale c P k :
  0 < P -> 0 < k -> c / (k * P) = c / P / k.
Proof.
  intros HP Hk. rewrite (Z.mul_comm k P), Z.div_div by lia. reflexivity.
Qed.

(** The three fields of the display of a time that is not negative. *)
Lemma fields_of_time c sc :
  0 <= c ->
  let q := c / pow10 sc in
  floor_div (Num (Dec c sc)) 3600 = of_Z (q / 3600) /\
  floor_div (rem (Num (Dec c sc)) 3600) 60 = of_Z (Z.rem q 3600 / 60) /\
  floor (rem (Num (Dec c sc)) 60) = of_Z (Z.rem q 60).
Proof.
  intros Hc q. subst q. pose proof (JSArith.pow10_pos sc) as HP.
  unfold floor, floor_div, rem. cbn [coef scale].
  repeat split; f_equal.
  - apply div_div_scale; lia.
  - rewrite div_div_scale by lia. rewrite rem_div_scale by lia. reflexivity.
  - rewrite Z.mul_1_l. apply rem_div_scale; lia.
Qed.

(** A number below 100 padded to two places is its two digits. *)
Lemma pad_two_digits m :
  0 <= m < 100 -> padStart 2 "0" (toString (of_Z m)) = two_digits m.
Proof.
  intros Hm.
  assert (H : forallb
                (fun k => String.eqb
                            (padStart 2 "0" (toString (of_Z (Z.of_nat k))))
                            (two_digits (Z.of_nat k)))
                (seq 0 100) = true) by (vm_compute; reflexivity).
  rewrite forallb_forall in H. specialize (H (Z.to_nat m)).
  rewrite Z2Nat.id in H by lia. apply String.eqb_eq, H, in_seq. lia.
Qed.

End DisplayFacts.

(** X11: the display of a time depends on its whole seconds only.  For
    every finite time [t] that is not negative, [formatTime] gives the
    text it gives for the integer part of [t]. *)
Theorem formatTime_whole_second (t : JS.dec) :
  0 <= JS.coef t ->
  Display.formatTime (JS.Num t) = Display.formatTime (JS.of_Z (JS.trunc t)).
Proof.
  destruct t as [c sc]. cbn [JS.coef]. intros Hc.
  pose proof (JSArith.pow10_pos sc) as HP.
  assert (Hq : 0 <= c / JS.pow10 sc) by (apply Z.div_pos; lia).
  destruct (DisplayFacts.fields_of_time c sc Hc) as (Hh & Hm & Hs).
  destruct (DisplayFacts.fields_of_time (c / JS.pow10 sc) 0 Hq)
    as (Hh' & Hm' & Hs').
  cbn zeta in *. change (JS.pow10 0) with 1 in *. rewrite Z.div_1_r in *.
  unfold JS.trunc, JS.of_Z in *. cbn [JS.coef JS.scale].
  rewrite Z.quot_div_nonneg by lia.
  unfold Display.formatTime. rewrite Hh, Hm, Hs, Hh', Hm', Hs'. reflexivity.
Qed.

(** 125.5 s is shown as 125 s is. *)
Lemma formatTime_whole_second_witness :
  Display.formatTime (JS.Num (JS.Dec 1255 1)) = Display.formatTime (JS.of_Z 125).
Proof. apply (formatTime_whole_second (JS.Dec 1255 1)). discriminate. Defined.

(** X12: the display of [h] hours, [m] minutes and [s] seconds, with
    [m] and [s] below 60 and a total that a double holds exactly (below
    2^53 seconds): hours when there are any, then the minutes (in two
    digits after hours), then the seconds in two digits, with colons
    between them. *)
Theorem formatTime_fields (h m s : Z) :
  0 <= h -> 0 <= m < 60 -> 0 <= s < 60 ->
  JS.safe_integer (h * 3600 + m * 60 + s) = true ->
  Display.formatTime (JS.of_Z (h * 3600 + m * 60 + s))
  = if 0 <? h then
      JS.toString (JS.of_Z h) +:+ ":" +:+ Display.two_digits m +:+ ":"
      +:+ Display.two_digits s
    else JS.toString (JS.of_Z m) +:+ ":" +:+ Display.two_digits s.
Proof.
  intros Hh Hm Hs _.
  destruct (DisplayFacts.fields_of_time (h * 3600 + m * 60 + s) 0)
    as (Eh & Em & Es); [lia |].
  cbn zeta in *. change (JS.pow10 0) with 1 in *. rewrite Z.div_1_r in *.
  assert (Eq1 : (h * 3600 + m * 60 + s) / 3600 = h)
    by (symmetry; apply (Z.div_unique _ _ _ (m * 60 + s)); lia).
  assert (Eq2 : Z.rem (h * 3600 + m * 60 + s) 3600 = m * 60 + s).
  { rewrite Z.rem_mod_nonneg by lia.
    symmetry. apply (Z.mod_unique _ _ h); lia. }
  assert (Eq3 : (m * 60 + s) / 60 = m)
    by (symmetry; apply (Z.div_unique _ _ _ s); lia).
  assert (Eq4 : Z.rem (h * 3600 + m * 60 + s) 60 = s).
  { rewrite Z.rem_mod_nonneg by lia.
    symmetry. apply (Z.mod_unique _ _ (h * 60 + m)); lia. }
  rewrite Eq1 in Eh. rewrite Eq2, Eq3 in Em. rewrite Eq4 in Es.
  unfold Display.formatTime. unfold JS.of_Z in *. rewrite Eh, Em, Es.
  change (JS.Num (JS.Dec ?z 0)) with (JS.of_Z z).
  rewrite PositionFacts.gt_of_Z.
  rewrite !DisplayFacts.pad_two_digits by lia. reflexivity.
Qed.

(** 1 h 2 min 5 s, and 45 min. *)
Lemma formatTime_fields_witness :
  Display.formatTime (JS.of_Z 3725) = "1:02:05"%string /\
  Display.formatTime (JS.of_Z 2700) = "45:00"%string.
Proof.
  split.
  - apply (formatTime_fields 1 2 5); first [lia | reflexivity].
  - apply (formatTime_fields 0 45 0); first [lia | reflexivity].
Defined.

(** ** The library *)

Module LibraryFacts.
Import Player Library.

Lemma filter_all {A} (P : A -> Prop) `{forall x, Decision (P x)} (l : list A) :
  Forall P l -> filter P l = l.
Proof.
  induction 1 as [| x l Hx _ IH]; [reflexivity |].
  rewrite filter_cons_True by exact Hx. rewrite IH. reflexivity.
Qed.

(** The index [findIndex] and [indexOf] give is that of the first
    element with the key. *)
Lemma first_index_cons {A} (f : A -> N) (id : N) (a : A) (l : list A) :
  fst <$> list_find (fun x => f x = id) (a :: l)
  = if decide (f a = id) then Some 0%nat
    else S <$> (fst <$> list_find (fun x => f x = id) l).
Proof.
  cbn. destruct (decide (f a = id)); [reflexivity |].
  destruct (list_find _ l) as [[i x] |]; reflexivity.
Qed.

Lemma first_index_none {A} (f : A -> N) (id : N) (l : list A) :
  Forall (fun x => f x <> id) l ->
  fst <$> list_find (fun x => f x = id) l = None.
Proof.
  induction 1 as [| a l Ha _ IH]; [reflexivity |].
  rewrite first_index_cons, IH. destruct (decide (f a = id)); [contradiction |].
  reflexivity.
Qed.

Lemma first_index_middle {A} (f : A -> N) (id : N) (l r : list A) (a : A) :
  Forall (fun x => f x <> id) l -> f a = id ->
  fst <$> list_find (fun x => f x = id) (l ++ a :: r) = Some (length l).
Proof.
  intros Hl Ha. induction Hl as [| b l Hb _ IH].
  - cbn [app]. rewrite first_index_cons.
    destruct (decide (f a = id)); [reflexivity | contradiction].
  - cbn [app]. rewrite first_index_cons, IH.
    destruct (decide (f b = id)); [contradiction | reflexivity].
Qed.

(** With keys that are all different, removing the first element with
    a key removes every element with it. *)
Lemma delete_first_filter {A} (f : A -> N) (id : N) (l : list A) :
  NoDup (map f l) ->
  match fst <$> list_find (fun x => f x = id) l with
  | Some i => delete i l
  | None => l
  end = filter (fun x => f x <> id) l.
Proof.
  induction l as [| a l IH]; intros Hnd; [reflexivity |].
  cbn [map] in Hnd. apply NoDup_cons in Hnd. destruct Hnd as [Ha Hnd].
  rewrite first_index_cons. destruct (decide (f a = id)) as [Heq | Hne].
  - rewrite filter_cons_False by (intros H; exact (H Heq)).
    cbn. symmetry. apply filter_all. apply Forall_forall. intros x Hx Hfx.
    apply Ha. rewrite Heq, <- Hfx. apply list_elem_of_fmap_2, Hx.
  - rewrite filter_cons_True by exact Hne.
    rewrite <- (IH Hnd).
    destruct (fst <$> list_find (fun x => f x = id) l); reflexivity.
Qed.

Lemma first_index_some {A} (f : A -> N) (id : N) (l : list A) (i : nat) :
  fst <$> list_find (fun x => f x = id) l = Some i ->
  exists x, l !! i = Some x /\ f x = id.
Proof.
  destruct (list_find _ l) as [[j x] |] eqn:Hfind; [| discriminate].
  cbn. intros [= <-]. apply list_find_Some in Hfind.
  exists x. split; [apply Hfind | apply Hfind].
Qed.

Lemma first_index_none_inv {A} (f : A -> N) (id : N) (l : list A) :
  fst <$> list_find (fun x => f x = id) l = None ->
  Forall (fun x => f x <> id) l.
Proof.
  destruct (list_find _ l) as [[j x] |] eqn:Hfind; [discriminate |].
  intros _. apply list_find_None in Hfind. exact Hfind.
Qed.

(** The bookmark [List.find] gives is the first one with the key. *)
Lemma find_bookmark_snoc (id : N) (l : list Bookmark) (b : Bookmark) :
  Forall (fun x => b_id x <> id) l -> b_id b = id ->
  List.find (fun x => (b_id x =? id)%N) (l ++ [b]) = Some b.
Proof.
  intros Hl Hb. induction Hl as [| a l Ha _ IH]; cbn.
  - apply N.eqb_eq in Hb. rewrite Hb. reflexivity.
  - apply N.eqb_neq in Ha. rewrite Ha. exact IH.
Qed.

Lemma find_episode_id st episodeId e :
  find_episode episodeId st = Some e -> ep_id e = episodeId.
Proof.
  unfold find_episode. intros H. apply find_some in H.
  apply N.eqb_eq, H.
Qed.

(** The downloads after [toggleDownload]. *)
Lemma toggleDownload_downloads episodeId app :
  downloads (toggleDownload episodeId app)
  = match indexOf episodeId (downloads app) with
    | Some index => delete index (downloads app)
    | None => downloads app ++ [episodeId]
    end.
Proof.
  unfold toggleDownload.
  destruct (indexOf episodeId (downloads app)); reflexivity.
Qed.

Lemma deleteBookmark_bookmarks bookmarkId app :
  bookmarks (deleteBookmark bookmarkId app)
  = match findIndex bookmarkId (bookmarks app) with
    | Some index => delete index (bookmarks app)
    | None => bookmarks app
    end.
Proof.
  unfold deleteBookmark.
  destruct (findIndex bookmarkId (bookmarks app)); reflexivity.
Qed.

Lemma playFromBookmark_found app b e :
  List.find (fun x => (b_id x =? b_id b)%N) (bookmarks app) = Some b ->
  find_episode (b_episodeId b) (player app) = Some e ->
  playFromBookmark (b_id b) app
  = set_timers (timers app ++ [b_timestamp b])
      (set_player (playEpisode (ep_id e) (player app)) app).
Proof.
  intros Hb He. unfold playFromBookmark. rewrite Hb, He. reflexivity.
Qed.

Lemma fire_timer_last app ts t :
  timers app = ts ++ [t] ->
  fire_timer (length ts) app
  = set_timers ts
      (set_player
         (set_audio (audio_set_currentTime t (audio (player app))) (player app))
         app).
Proof.
  intros Ht. unfold fire_timer. rewrite Ht.
  rewrite list_lookup_middle by reflexivity.
  rewrite delete_middle, app_nil_r. reflexivity.
Qed.

Lemma addBookmark_current app now note e :
  currentEpisode (player app) = Some e ->
  addBookmark now note app
  = notify "Marcador añadido"
      (save
         (set_bookmarks
            (bookmarks app
             ++ [{| b_id := now; b_episodeId := ep_id e;
                    b_episodeTitle := ep_title e;
                    b_timestamp := currentTime (player app);
                    b_note := match note with Some s => s | None => "" end |}])
            app)).
Proof. intros He. unfold addBookmark. rewrite He. reflexivity. Qed.

Lemma toggleBookmark_found app now episodeId e :
  find_episode episodeId (player app) = Some e ->
  toggleBookmark now episodeId app
  = notify "Marcador añadido"
      (save
         (set_bookmarks
            (bookmarks app
             ++ [{| b_id := now; b_episodeId := episodeId;
                    b_episodeTitle := ep_title e;
                    b_timestamp :=
                      JSMath.or_else (currentTime (player app)) (JS.of_Z 0);
                    b_note := "" |}])
            app)).
Proof. intros He. unfold toggleBookmark. rewrite He. reflexivity. Qed.

End LibraryFacts.

(** X13: [toggleDownload] flips the download of one episode.  On a list
    of downloads without repetition, the episode is in the list after
    the call exactly when it was not before, every other episode is in
    it exactly when it was, and the list is still without repetition. *)
Theorem toggleDownload_flips (app : Library.App) (episodeId : N) :
  NoDup (Library.downloads app) ->
  let after := Library.downloads (Library.toggleDownload episodeId app) in
  NoDup after /\
  (episodeId ∈ after <-> episodeId ∉ Library.downloads app) /\
  (forall x, x <> episodeId -> x ∈ after <-> x ∈ Library.downloads app).
Proof.
  intros Hnd after. subst after.
  rewrite LibraryFacts.toggleDownload_downloads. unfold Library.indexOf.
  pose proof (LibraryFacts.delete_first_filter (fun x : N => x) episodeId
                (Library.downloads app)) as Hdel.
  rewrite map_id in Hdel. specialize (Hdel Hnd). cbn beta in Hdel.
  destruct (fst <$> list_find (fun x : N => x = episodeId) (Library.downloads app))
    as [i |] eqn:Hfind.
  - rewrite Hdel.
    apply (LibraryFacts.first_index_some (fun x : N => x)) in Hfind.
    destruct Hfind as (x & Hx & ->). apply list_elem_of_lookup_2 in Hx.
    split; [apply NoDup_filter, Hnd |]. split.
    + rewrite list_elem_of_filter. split; [intros [H _]; contradiction |].
      intros H. contradiction.
    + intros y Hy. rewrite list_elem_of_filter. tauto.
  - apply (LibraryFacts.first_index_none_inv (fun x : N => x)) in Hfind.
    assert (Hnot : episodeId ∉ Library.downloads app).
    { intros Hin. rewrite Forall_forall in Hfind.
      exact (Hfind _ Hin eq_refl). }
    split; [| split].
    + apply NoDup_app. split; [exact Hnd |]. split; [| apply NoDup_singleton].
      intros x Hx Hx'. apply list_elem_of_singleton in Hx'. subst x.
      contradiction.
    + rewrite elem_of_app, list_elem_of_singleton. tauto.
    + intros y Hy. rewrite elem_of_app, list_elem_of_singleton. tauto.
Qed.

(** Episodes 2 and 3 downloaded: toggling 2 removes it and keeps 3. *)
Lemma toggleDownload_flips_witness :
  NoDup (Library.downloads (Library.toggleDownload 2 Case.two_downloads)) /\
  (2%N ∈ Library.downloads (Library.toggleDownload 2 Case.two_downloads)
   <-> 2%N ∉ Library.downloads Case.two_downloads).
Proof.
  destruct (toggleDownload_flips Case.two_downloads 2) as (H1 & H2 & _).
  - change (NoDup [2%N; 3%N]). apply NoDup_cons. split.
    + intros H. apply list_elem_of_singleton in H. discriminate.
    + apply NoDup_singleton.
  - split; [exact H1 | exact H2].
Defined.

(** X14: toggling the download of an episode that is not downloaded
    twice gives the list of downloads back, in the same order. *)
Theorem toggleDownload_twice (app : Library.App) (episodeId : N) :
  episodeId ∉ Library.downloads app ->
  Library.downloads
    (Library.toggleDownload episodeId (Library.toggleDownload episodeId app))
  = Library.downloads app.
Proof.
  intros Hnot.
  assert (Hall : Forall (fun x : N => x <> episodeId) (Library.downloads app)).
  { apply Forall_forall. intros x Hx ->. contradiction. }
  assert (Hfirst : Library.downloads (Library.toggleDownload episodeId app)
                   = Library.downloads app ++ [episodeId]).
  { rewrite LibraryFacts.toggleDownload_downloads. unfold Library.indexOf.
    rewrite (LibraryFacts.first_index_none (fun x : N => x) _ _ Hall).
    reflexivity. }
  rewrite LibraryFacts.toggleDownload_downloads, Hfirst.
  unfold Library.indexOf.
  rewrite (LibraryFacts.first_index_middle (fun x : N => x) _ _ [] _ Hall eq_refl).
  rewrite delete_middle. apply app_nil_r.
Qed.

(** Episode 1 on the downloads 2 and 3. *)
Lemma toggleDownload_twice_witness :
  Library.downloads
    (Library.toggleDownload 1 (Library.toggleDownload 1 Case.two_downloads))
  = [2%N; 3%N].
Proof.
  apply (toggleDownload_twice Case.two_downloads 1).
  change (1%N ∉ [2%N; 3%N]). intros H.
  apply elem_of_cons in H. destruct H as [H | H]; [discriminate |].
  apply list_elem_of_singleton in H. discriminate.
Defined.

(** X15: [deleteBookmark] on bookmarks whose identifiers are all
    different removes the bookmark with the identifier and keeps the
    others in their order; when no bookmark has the identifier, nothing
    changes and nothing is saved. *)
Theorem deleteBookmark_removes (app : Library.App) (bookmarkId : N) :
  NoDup (map Library.b_id (Library.bookmarks app)) ->
  Library.bookmarks (Library.deleteBookmark bookmarkId app)
  = filter (fun b => Library.b_id b <> bookmarkId) (Library.bookmarks app) /\
  (Forall (fun b => Library.b_id b <> bookmarkId) (Library.bookmarks app) ->
   Library.deleteBookmark bookmarkId app = app).
Proof.
  intros Hnd. split.
  - rewrite LibraryFacts.deleteBookmark_bookmarks. unfold Library.findIndex.
    apply (LibraryFacts.delete_first_filter Library.b_id), Hnd.
  - intros Hall. unfold Library.deleteBookmark, Library.findIndex.
    rewrite (LibraryFacts.first_index_none Library.b_id _ _ Hall).
    reflexivity.
Qed.

(** Two bookmarks made at 1000 and 2000 on episode 1: deleting 1000
    leaves the second. *)
Lemma deleteBookmark_removes_witness :
  map Library.b_id
    (Library.bookmarks
       (Library.deleteBookmark 1000
          (Library.addBookmark 2000 None
             (Library.addBookmark 1000 None Case.library_at_125_5))))
  = [2000%N].
Proof.
  rewrite (proj1 (deleteBookmark_removes
                    (Library.addBookmark 2000 None
                       (Library.addBookmark 1000 None Case.library_at_125_5))
                    1000 ltac:(vm_compute; repeat constructor;
                               rewrite ?elem_of_cons, ?elem_of_nil;
                               intuition discriminate))).
  reflexivity.
Defined.

(** X16: two bookmarks made in the same millisecond get the same
    identifier, and [deleteBookmark] with that identifier removes only
    the older one: the newer one stays, still under the identifier. *)
Theorem same_millisecond_bookmarks (app : Library.App) (e : Player.Episode)
    (now : N) (note1 note2 : option string) :
  Player.currentEpisode (Library.player app) = Some e ->
  Forall (fun b => Library.b_id b <> now) (Library.bookmarks app) ->
  let app2 := Library.addBookmark now note2 (Library.addBookmark now note1 app) in
  exists b1 b2,
    Library.bookmarks app2 = Library.bookmarks app ++ [b1; b2] /\
    Library.b_id b1 = now /\ Library.b_id b2 = now /\
    Library.bookmarks (Library.deleteBookmark now app2)
    = Library.bookmarks app ++ [b2].
Proof.
  intros He Hall. cbn zeta.
  rewrite (LibraryFacts.addBookmark_current app now note1 e He).
  set (b1 := Library.Build_Bookmark now _ _ _ _).
  set (app1 := Library.notify _ _).
  assert (He1 : Player.currentEpisode (Library.player app1) = Some e)
    by exact He.
  rewrite (LibraryFacts.addBookmark_current app1 now note2 e He1).
  set (b2 := Library.Build_Bookmark now _ _ _ _).
  set (app2 := Library.notify _ _).
  exists b1, b2.
  assert (Hbs : Library.bookmarks app2 = Library.bookmarks app ++ [b1; b2]).
  { change ((Library.bookmarks app ++ [b1]) ++ [b2]
            = Library.bookmarks app ++ [b1; b2]).
    rewrite <- app_assoc. reflexivity. }
  split; [exact Hbs |]. split; [reflexivity |]. split; [reflexivity |].
  rewrite LibraryFacts.deleteBookmark_bookmarks, Hbs.
  unfold Library.findIndex.
  change (Library.bookmarks app ++ [b1; b2])
    with (Library.bookmarks app ++ b1 :: [b2]).
  rewrite (LibraryFacts.first_index_middle Library.b_id now _ [b2] b1 Hall
             eq_refl).
  apply delete_middle.
Qed.

(** Two bookmarks made at the millisecond 1000 on episode 1: after the
    deletion one of them is left. *)
Lemma same_millisecond_bookmarks_witness :
  exists b1 b2,
    Library.bookmarks
      (Library.addBookmark 1000 (Some "b"%string)
         (Library.addBookmark 1000 (Some "a"%string) Case.library_at_125_5))
    = Library.bookmarks Case.library_at_125_5 ++ [b1; b2] /\
    Library.b_id b1 = 1000%N /\ Library.b_id b2 = 1000%N /\
    Library.bookmarks
      (Library.deleteBookmark 1000
         (Library.addBookmark 1000 (Some "b"%string)
            (Library.addBookmark 1000 (Some "a"%string) Case.library_at_125_5)))
    = Library.bookmarks Case.library_at_125_5 ++ [b2].
Proof.
  apply (same_millisecond_bookmarks Case.library_at_125_5 Player.sample_1
           1000 (Some "a"%string) (Some "b"%string)).
  - reflexivity.
  - constructor.
Defined.

(** X17: a bookmark brings the episode back to where it was made.
    With a current episode of the catalog, [addBookmark], then
    [playFromBookmark] of the new bookmark and the seek it schedules,
    leave the element on that episode at the position the player held
    when the bookmark was made, whatever progress is saved for the
    episode. *)
Theorem bookmark_round_trip (app : Library.App) (e : Player.Episode)
    (now : N) (note : option string) :
  Player.currentEpisode (Library.player app) = Some e ->
  Player.find_episode (Player.ep_id e) (Library.player app) = Some e ->
  Forall (fun b => Library.b_id b <> now) (Library.bookmarks app) ->
  let app' :=
    Library.fire_timer (length (Library.timers app))
      (Library.playFromBookmark now (Library.addBookmark now note app)) in
  Player.currentEpisode (Library.player app') = Some e /\
  Player.a_currentTime (Player.audio (Library.player app'))
  = Player.currentTime (Library.player app) /\
  Library.timers app' = Library.timers app.
Proof.
  intros He Hfind Hall. cbn zeta.
  rewrite (LibraryFacts.addBookmark_current app now note e He).
  set (b := Library.Build_Bookmark now _ _ _ _).
  set (app1 := Library.notify _ _).
  assert (Hb : List.find (fun x => (Library.b_id x =? Library.b_id b)%N)
                 (Library.bookmarks app1) = Some b)
    by (apply (LibraryFacts.find_bookmark_snoc now _ b Hall); reflexivity).
  assert (Hfind1 : Player.find_episode (Library.b_episodeId b)
                     (Library.player app1) = Some e)
    by exact Hfind.
  assert (Hplay : Library.playFromBookmark now app1
                  = Library.set_timers
                      (Library.timers app1 ++ [Library.b_timestamp b])
                      (Library.set_player
                         (Player.playEpisode (Player.ep_id e)
                            (Library.player app1)) app1))
    by exact (LibraryFacts.playFromBookmark_found app1 b e Hb Hfind1).
  rewrite Hplay.
  rewrite (LibraryFacts.fire_timer_last _ (Library.timers app)
             (Library.b_timestamp b)) by reflexivity.
  destruct (CommandFacts.playEpisode_fields (Library.player app1) e Hfind)
    as (Hcur & _).
  split; [exact Hcur |]. split; reflexivity.
Qed.

(** A bookmark made at 125.5 s of episode 1 brings it back to 125.5 s,
    though the saved progress reads 125. *)
Lemma bookmark_round_trip_witness :
  Player.a_currentTime
    (Player.audio
       (Library.player
          (Library.fire_timer 0
             (Library.playFromBookmark 1000
                (Library.addBookmark 1000 None Case.library_at_125_5)))))
  = JS.Num (JS.Dec 1255 1).
Proof.
  apply (bookmark_round_trip Case.library_at_125_5 Player.sample_1 1000 None).
  - reflexivity.
  - reflexivity.
  - constructor.
Defined.

(** X18: the seek of [playFromBookmark] does not look at the episode.
    When another episode of the catalog is started after
    [playFromBookmark] and before its scheduled seek runs, the seek
    moves that other episode to the position of the bookmark. *)
Theorem bookmark_seek_hits_current (app : Library.App) (b : Library.Bookmark)
    (e other : Player.Episode) :
  List.find (fun x => (Library.b_id x =? Library.b_id b)%N)
    (Library.bookmarks app) = Some b ->
  Player.find_episode (Library.b_episodeId b) (Library.player app) = Some e ->
  Player.find_episode (Player.ep_id other) (Library.player app) = Some other ->
  let app1 := Library.playFromBookmark (Library.b_id b) app in
  let app2 :=
    Library.set_player
      (Player.playEpisode (Player.ep_id other) (Library.player app1)) app1 in
  let app3 := Library.fire_timer (length (Library.timers app)) app2 in
  Player.currentEpisode (Library.player app3) = Some other /\
  Player.a_currentTime (Player.audio (Library.player app3))
  = Library.b_timestamp b.
Proof.
  intros Hb He Hother. cbn zeta.
  rewrite (LibraryFacts.playFromBookmark_found app b e Hb He).
  set (st1 := Player.playEpisode (Player.ep_id e) (Library.player app)).
  assert (Hfind1 : Player.find_episode (Player.ep_id other) st1 = Some other).
  { rewrite <- Hother.
    pose proof (LibraryFacts.find_episode_id _ _ _ He) as Hid.
    assert (He' : Player.find_episode (Player.ep_id e) (Library.player app)
                  = Some e) by (rewrite Hid; exact He).
    destruct (CommandFacts.playEpisode_fields _ e He')
      as (_ & _ & _ & _ & _ & _ & _ & Heps & _).
    fold st1 in Heps. unfold Player.find_episode. rewrite Heps. reflexivity. }
  destruct (CommandFacts.playEpisode_fields st1 other Hfind1) as (Hcur & _).
  rewrite (LibraryFacts.fire_timer_last _ (Library.timers app)
             (Library.b_timestamp b)) by reflexivity.
  split; [exact Hcur | reflexivity].
Qed.

(** A bookmark of episode 1 at 125.5 s is played, episode 2 is started
    before the seek runs: episode 2 is put at 125.5 s. *)
Lemma bookmark_seek_hits_current_witness :
  let marked := Library.addBookmark 1000 None Case.library_at_125_5 in
  let app1 := Library.playFromBookmark 1000 marked in
  let app2 :=
    Library.set_player (Player.playEpisode 2 (Library.player app1)) app1 in
  let app3 := Library.fire_timer 0 app2 in
  Player.currentEpisode (Library.player app3) = Some Player.sample_2 /\
  Player.a_currentTime (Player.audio (Library.player app3))
  = JS.Num (JS.Dec 1255 1).
Proof.
  apply (bookmark_seek_hits_current
           (Library.addBookmark 1000 None Case.library_at_125_5)
           {| Library.b_id := 1000; Library.b_episodeId := 1;
              Library.b_episodeTitle := Player.ep_title Player.sample_1;
              Library.b_timestamp := JS.Num (JS.Dec 1255 1);
              Library.b_note := "" |}
           Player.sample_1 Player.sample_2); reflexivity.
Defined.

(** X19: [toggleBookmark] never removes a bookmark.  Called twice for
    an episode of the catalog, it leaves two bookmarks of that episode
    after the ones there were. *)
Theorem toggleBookmark_only_adds (app : Library.App) (e : Player.Episode)
    (episodeId now1 now2 : N) :
  Player.find_episode episodeId (Library.player app) = Some e ->
  exists b1 b2,
    Library.bookmarks
      (Library.toggleBookmark now2 episodeId
         (Library.toggleBookmark now1 episodeId app))
    = Library.bookmarks app ++ [b1; b2] /\
    Library.b_episodeId b1 = episodeId /\ Library.b_episodeId b2 = episodeId.
Proof.
  intros Hfind.
  rewrite (LibraryFacts.toggleBookmark_found app now1 episodeId e Hfind).
  set (b1 := Library.Build_Bookmark now1 _ _ _ _).
  set (app1 := Library.notify _ _).
  assert (Hfind1 : Player.find_episode episodeId (Library.player app1) = Some e)
    by exact Hfind.
  rewrite (LibraryFacts.toggleBookmark_found app1 now2 episodeId e Hfind1).
  set (b2 := Library.Build_Bookmark now2 _ _ _ _).
  exists b1, b2. split; [| split; reflexivity].
  change ((Library.bookmarks app ++ [b1]) ++ [b2]
          = Library.bookmarks app ++ [b1; b2]).
  rewrite <- app_assoc. reflexivity.
Qed.

(** Episode 2 bookmarked twice from the list of a fresh player. *)
Lemma toggleBookmark_only_adds_witness :
  exists b1 b2,
    Library.bookmarks
      (Library.toggleBookmark 2000 2 (Library.toggleBookmark 1000 2 Library.fresh))
    = Library.bookmarks Library.fresh ++ [b1; b2] /\
    Library.b_episodeId b1 = 2%N /\ Library.b_episodeId b2 = 2%N.
Proof.
  apply (toggleBookmark_only_adds Library.fresh Player.sample_2 2 1000 2000).
  reflexivity.
Defined.


(** X21: [clearData], once confirmed, empties the bookmarks and the
    downloads, zeroes the analytics and leaves no saved position, but
    keeps the current episode, the playing flag and the audio element
    as they are; declined, it changes nothing. *)
Theorem clearData_clears (app : Library.App) (episodeId : N) :
  let app' := Library.clearData true app in
  Library.bookmarks app' = [] /\ Library.downloads app' = [] /\
  Player.totalPlays (Player.analytics (Library.player app')) = 0%N /\
  Player.getEpisodeProgress episodeId (Library.player app') = JS.of_Z 0 /\
  Player.analytics (Player.init (Player.localStorage (Library.player app')))
  = Player.analytics (Library.player app') /\
  Player.currentEpisode (Library.player app')
  = Player.currentEpisode (Library.player app) /\
  Player.isPlaying (Library.player app') = Player.isPlaying (Library.player app) /\
  Player.audio (Library.player app') = Player.audio (Library.player app) /\
  Library.theme app' = Library.theme app /\
  Library.clearData false app = app.
Proof.
  cbn zeta. do 3 (split; [reflexivity |]).
  split; [| repeat split; reflexivity].
  unfold Player.getEpisodeProgress.
  change (Player.localStorage (Library.player (Library.clearData true app)))
    with (∅ : gmap string Player.Stored).
  rewrite lookup_empty. reflexivity.
Qed.

(** X22: clearing the data during playback does not stop the saving of
    positions.  With an episode current, the first progress tick after
    a confirmed [clearData], at a position [t] from 0.000001 up to
    10^21, saves the episode's position again. *)
Theorem cleared_progress_returns (app : Library.App) (e : Player.Episode)
    (t : JS.dec) :
  Player.currentEpisode (Library.player app) = Some e ->
  JS.positional t = true ->
  Player.getEpisodeProgress (Player.ep_id e)
    (Player.handle_tick (JS.Num t)
       (Library.player (Library.clearData true app)))
  = JS.of_Z (JS.trunc t).
Proof.
  intros He Hpos.
  apply PlayerFacts.getEpisodeProgress_stored; [exact Hpos |].
  rewrite (TickFacts.handle_tick_positive _ e (JS.Num t));
    [apply lookup_insert_eq | exact He |].
  apply PlayerFacts.positional_gt, Hpos.
Qed.

(** Episode 1 playing, data cleared, tick at 126.5 s. *)
Lemma cleared_progress_returns_witness :
  Player.getEpisodeProgress 1
    (Player.handle_tick (JS.Num (JS.Dec 1265 1))
       (Library.player (Library.clearData true Case.library_at_125_5)))
  = JS.of_Z 126.
Proof.
  apply (cleared_progress_returns Case.library_at_125_5 Player.sample_1
           (JS.Dec 1265 1)); reflexivity.
Defined.

(** X23: the keyboard shortcuts save through the element.  Whatever
    the key and its target, the [keydown] listener makes no [setItem]
    call of its own and leaves [localStorage], the current episode and
    the analytics as they are when it returns; it leaves at most one
    more [timeupdate] queued on the element (the one of a pause or of a
    seek), and a key pressed in an input field changes nothing at all.
    The space bar on an element that plays the current episode at a
    position above 0 leads to the write of that position, made when
    the queued [timeupdate] runs. *)
Theorem keydown_saves_through_element (in_input : bool) (code : string)
    (st : Player.State) :
  let st' := Keyboard.keydown in_input code st in
  Player.writes st' = Player.writes st /\
  Player.localStorage st' = Player.localStorage st /\
  Player.currentEpisode st' = Player.currentEpisode st /\
  Player.analytics st' = Player.analytics st /\
  (Player.queued (Player.audio st') = Player.queued (Player.audio st) \/
   Player.queued (Player.audio st') = S (Player.queued (Player.audio st))) /\
  Keyboard.keydown true code st = st /\
  (forall e : Player.Episode,
     in_input = false -> code = "Space"%string ->
     Player.currentEpisode st = Some e -> Player.isPlaying st = true ->
     Player.paused (Player.audio st) = false ->
     JS.gt (Player.a_currentTime (Player.audio st)) (JS.of_Z 0) = true ->
     Player.localStorage (Player.deliver st')
       !! Player.progress_key (Player.ep_id e)
     = Some (Player.Text (JS.toString (Player.a_currentTime (Player.audio st))))).
Proof.
  cbn zeta.
  assert (Hspace : forall e : Player.Episode,
            Player.currentEpisode st = Some e -> Player.isPlaying st = true ->
            Player.paused (Player.audio st) = false ->
            JS.gt (Player.a_currentTime (Player.audio st)) (JS.of_Z 0) = true ->
            Player.localStorage (Player.deliver (Player.togglePlayPause st))
              !! Player.progress_key (Player.ep_id e)
            = Some (Player.Text
                      (JS.toString (Player.a_currentTime (Player.audio st))))).
  { intros e He Hplaying Hpaused Hgt.
    destruct (PauseFacts.togglePlayPause_playing st e He Hplaying)
      as (He1 & _ & _ & Hp1 & Hq1 & _).
    rewrite Hpaused in Hq1.
    destruct (PauseFacts.deliver_writes _ _ e Hq1 He1) as (_ & Hyes & _).
    rewrite Hp1 in Hyes. exact (Hyes Hgt). }
  unfold Keyboard.keydown.
  destruct in_input.
  { do 4 (split; [reflexivity |]). split; [left; reflexivity |].
    split; [reflexivity |]. intros e H. discriminate H. }
  destruct (String.eqb code "Space") eqn:Hcode.
  - destruct (CommandFacts.togglePlayPause_store st) as [Hs Hw].
    split; [exact Hw |]. split; [exact Hs |].
    split; [| split; [| split; [| split; [reflexivity |]]]].
    + unfold Player.togglePlayPause.
      destruct (Player.currentEpisode st) eqn:Hcur; [| exact Hcur].
      rewrite CommandFacts.updateMiniPlayer_dom.
      destruct (Player.isPlaying st); exact Hcur.
    + unfold Player.togglePlayPause.
      destruct (Player.currentEpisode st); [| reflexivity].
      rewrite CommandFacts.updateMiniPlayer_dom.
      destruct (Player.isPlaying st); reflexivity.
    + unfold Player.togglePlayPause.
      destruct (Player.currentEpisode st); [| left; reflexivity].
      rewrite CommandFacts.updateMiniPlayer_dom.
      destruct (Player.isPlaying st); [| left; reflexivity].
      change (Player.queued
                (Player.audio
                   (Player.set_dom ?d
                      (Player.set_isPlaying false (Player.audio_pause st)))))
        with (if Player.paused (Player.audio st)
              then Player.queued (Player.audio st)
              else S (Player.queued (Player.audio st))).
      destruct (Player.paused (Player.audio st));
        [left; reflexivity | right; reflexivity].
    + intros e _ _. apply Hspace.
  - assert (Hseek : forall t,
              Player.queued
                (Player.audio_set_currentTime t (Player.audio st))
              = Player.queued (Player.audio st) \/
              Player.queued
                (Player.audio_set_currentTime t (Player.audio st))
              = S (Player.queued (Player.audio st))).
    { intros t. unfold Player.audio_set_currentTime. cbn [Player.queued].
      destruct (Player.a_duration (Player.audio st));
        [left; reflexivity | right; reflexivity]. }
    assert (Hnot : forall e : Player.Episode,
              false = false -> code = "Space"%string -> False).
    { intros _ _ Heq. apply String.eqb_neq in Hcode. contradiction. }
    destruct (String.eqb code "ArrowLeft").
    + unfold Player.skipBackward. destruct (JS.truthy _).
      * do 4 (split; [reflexivity |]). split; [apply Hseek |].
        split; [reflexivity |]. intros e H1 H2. destruct (Hnot e H1 H2).
      * do 4 (split; [reflexivity |]). split; [left; reflexivity |].
        split; [reflexivity |]. intros e H1 H2. destruct (Hnot e H1 H2).
    + destruct (String.eqb code "ArrowRight").
      * unfold Player.skipForward. destruct (JS.truthy _).
        -- do 4 (split; [reflexivity |]). split; [apply Hseek |].
           split; [reflexivity |]. intros e H1 H2. destruct (Hnot e H1 H2).
        -- do 4 (split; [reflexivity |]). split; [left; reflexivity |].
           split; [reflexivity |]. intros e H1 H2. destruct (Hnot e H1 H2).
      * do 4 (split; [reflexivity |]). split; [left; reflexivity |].
        split; [reflexivity |]. intros e H1 H2. destruct (Hnot e H1 H2).
Qed.

(** The space bar at 125 s of episode 1: the position 125 is saved
    when the queued task runs. *)
Lemma keydown_saves_through_element_witness :
  Player.localStorage
    (Player.deliver (Keyboard.keydown false "Space" Scenario.playing_at_125))
    !! "episode_progress_1"%string
  = Some (Player.Text "125").
Proof.
  apply (proj2 (proj2 (proj2 (proj2 (proj2 (proj2
           (keydown_saves_through_element false "Space"
              Scenario.playing_at_125))))))
           Player.sample_1); reflexivity.
Defined.

(** ** The restoration prompt, further *)

Section RestoreFailure.
Context {Engine : Type} {service : Restoration.AudioService Engine}.

(** X24: a restore that fails leaves the prompt as it was.  When
    [loadEpisode] is rejected, [seekTo] is not called and the engine is
    left as the load left it; when the load resolves and [seekTo] is
    rejected, the engine is left as the seek left it.  In both cases
    the saved pointer and the episode are kept, the prompt stays up if
    it was, and [isLoading] is false again. *)
Theorem failed_restore_keeps_prompt (c : Restoration.Coordinator)
    (s s' : Engine) (ep : Restoration.Episode) (l : Restoration.LastPlayback)
    (error : string) :
  Restoration.episode c = Some ep ->
  Restoration.lastPlaybackState c = Some l ->
  Restoration.loadEpisode ep s = Restoration.Rejected error s' \/
  (exists s1,
     Restoration.loadEpisode ep s = Restoration.Resolved s1 /\
     Restoration.seekTo (Restoration.position l) s1
     = Restoration.Rejected error s') ->
  let '(c', s'') := Restoration.handleRestore c s in
  s'' = s' /\
  Restoration.lastPlaybackState c' = Some l /\
  Restoration.episode c' = Some ep /\
  Restoration.promptShown c' = Restoration.promptShown c /\
  Restoration.isLoading c' = false.
Proof.
  intros Hep Hl Hfail. unfold Restoration.handleRestore. rewrite Hep, Hl.
  destruct Hfail as [Hload | (s1 & Hload & Hseek)].
  - rewrite Hload. split; [reflexivity |]. split; [exact Hl |].
    split; [exact Hep |]. split; reflexivity.
  - rewrite Hload, Hseek. split; [reflexivity |]. split; [exact Hl |].
    split; [exact Hep |]. split; reflexivity.
Qed.
End RestoreFailure.

(** The prompt for [E1] on a service whose load fails, and on one whose
    seek fails: the pointer is kept and the prompt is still up. *)
Lemma failed_restore_keeps_prompt_witness :
  (let '(c', s') :=
     @Restoration.handleRestore _ Case.failing_load Scenario.prompt_E1 0%nat in
   s' = 1%nat /\
   Restoration.lastPlaybackState c' = Some Scenario.saved_E1 /\
   Restoration.promptShown c' = true) /\
  (let '(c', s') :=
     @Restoration.handleRestore _ Case.failing_seek Scenario.prompt_E1 0%nat in
   s' = 11%nat /\
   Restoration.lastPlaybackState c' = Some Scenario.saved_E1 /\
   Restoration.promptShown c' = true).
Proof.
  split.
  - pose proof (@failed_restore_keeps_prompt _ Case.failing_load
                  Scenario.prompt_E1 0%nat 1%nat Scenario.episode_E1
                  Scenario.saved_E1 "LoadError" eq_refl eq_refl
                  (or_introl eq_refl)) as H.
    destruct (@Restoration.handleRestore _ Case.failing_load
                Scenario.prompt_E1 0%nat) as [c' s'].
    destruct H as (H1 & H2 & _ & H3 & _).
    split; [exact H1 |]. split; [exact H2 | exact H3].
  - pose proof (@failed_restore_keeps_prompt _ Case.failing_seek
                  Scenario.prompt_E1 0%nat 11%nat Scenario.episode_E1
                  Scenario.saved_E1 "SeekError" eq_refl eq_refl
                  (or_intror (ex_intro _ 1%nat (conj eq_refl eq_refl)))) as H.
    destruct (@Restoration.handleRestore _ Case.failing_seek
                Scenario.prompt_E1 0%nat) as [c' s'].
    destruct H as (H1 & H2 & _ & H3 & _).
    split; [exact H1 |]. split; [exact H2 | exact H3].
Defined.

(** X25: the prompt appears exactly when the pointer resolves.  On a
    component whose prompt is not up, the effect run at mount shows the
    prompt if and only if there is a saved pointer with an episode
    identifier that is not empty and the lookup of that identifier
    gives an episode; the prompt then is for that episode. *)
Theorem prompt_iff_found (getEpisodeById : string -> Restoration.Lookup)
    (c : Restoration.Coordinator) :
  Restoration.isVisible c = false ->
  let c' := Restoration.onMount getEpisodeById c in
  (Restoration.promptShown c' = true <->
   exists l e,
     Restoration.lastPlaybackState c = Some l /\
     Restoration.episodeId l <> ""%string /\
     getEpisodeById (Restoration.episodeId l) = Restoration.Found e) /\
  (forall l e,
     Restoration.lastPlaybackState c = Some l ->
     Restoration.episodeId l <> ""%string ->
     getEpisodeById (Restoration.episodeId l) = Restoration.Found e ->
     Restoration.episode c' = Some e /\
     Restoration.lastPlaybackState c' = Some l).
Proof.
  intros Hvis. cbn zeta.
  unfold Restoration.onMount, Restoration.loadEpisodeForRestoration.
  assert (Hhidden : Restoration.promptShown c = false)
    by (unfold Restoration.promptShown; rewrite Hvis; reflexivity).
  destruct (Restoration.lastPlaybackState c) as [l |] eqn:Hl.
  - destruct (String.eqb (Restoration.episodeId l) "") eqn:Hid.
    + apply String.eqb_eq in Hid. split.
      * rewrite Hhidden. split; [discriminate |].
        intros (l' & e & [= <-] & Hne & _). contradiction.
      * intros l' e [= <-] Hne. contradiction.
    + apply String.eqb_neq in Hid.
      destruct (getEpisodeById (Restoration.episodeId l)) as [e | |] eqn:Hget.
      * split.
        -- split; [| intros _; unfold Restoration.promptShown; cbn; rewrite Hl;
                     reflexivity].
           intros _. exists l, e. repeat split; assumption.
        -- intros l' e' [= <-] _ Hfound. rewrite Hget in Hfound.
           injection Hfound as <-. split; [reflexivity | exact Hl].
      * split.
        -- rewrite Hhidden. split; [discriminate |].
           intros (l' & e & [= <-] & _ & Hfound). congruence.
        -- intros l' e [= <-] _ Hfound. congruence.
      * split.
        -- split; [unfold Restoration.promptShown; cbn; rewrite Hvis; discriminate |].
           intros (l' & e & [= <-] & _ & Hfound). congruence.
        -- intros l' e [= <-] _ Hfound. congruence.
  - split.
    + rewrite Hhidden. split; [discriminate |].
      intros (l' & e & Hsome & _). discriminate.
    + intros l' e Hsome. discriminate.
Qed.

(** The cold start with a pointer to [E1], found by the lookup. *)
Lemma prompt_iff_found_witness :
  Restoration.promptShown Scenario.prompt_E1 = true.
Proof.
  apply (proj1 (prompt_iff_found (fun _ => Restoration.Found Scenario.episode_E1)
                  Scenario.cold_start_E1 eq_refl)).
  exists Scenario.saved_E1, Scenario.episode_E1.
  split; [reflexivity |]. split; [discriminate | reflexivity].
Defined.
